(** * wakeword_testing: loudness trigger and microphone gain loop

    A shallow embedding of the decision logic of
    [wakeword_testing/custom_porcupine.py] (the [AudioLevelDetector] fallback,
    the tail of [create] and the announcement of the listening loop), of
    [wakeword_testing/normalize_mic_volume.py] ([calculate_rms],
    [get_current_mic_volume], [set_mic_volume] and the loop of [main]) and of
    the announcements of [wakeword_testing/wake_word_test.py].

    Numbers are modelled as the code has them: Python [int]s are [Z],
    [time.time()] values and [cooldown_period] are IEEE binary64 floats, the
    numpy arrays are binary32 ([np.float32]).  Floats are the inductive
    [spec_float] of the Standard Library with its rounding operations, so that
    NaN, infinities and rounding behave as on the machine and every definition
    computes. *)

From Stdlib Require Import ZArith List Bool Lia String Ascii.
From Stdlib Require Import SpecFloat.
From Stdlib.Strings Require Byte.
Import ListNotations.

Local Open Scope Z_scope.

(** ** Floating point *)

Module F64.
(** Python [float]. *)
Definition prec : Z := 53.
Definition emax : Z := 1024.
Definition of_Z (z : Z) : spec_float := binary_normalize prec emax z 0 false.
Definition sub : spec_float -> spec_float -> spec_float := SFsub prec emax.
Definition ltb : spec_float -> spec_float -> bool := SFltb.
End F64.

Module F32.
(** [np.float32]. *)
Definition prec : Z := 24.
Definition emax : Z := 128.
Definition of_Z (z : Z) : spec_float := binary_normalize prec emax z 0 false.
Definition add : spec_float -> spec_float -> spec_float := SFadd prec emax.
Definition mul : spec_float -> spec_float -> spec_float := SFmul prec emax.
Definition div : spec_float -> spec_float -> spec_float := SFdiv prec emax.
Definition sqrt : spec_float -> spec_float := SFsqrt prec emax.
Definition ltb : spec_float -> spec_float -> bool := SFltb.
Definition leb : spec_float -> spec_float -> bool := SFleb.
Definition zero : spec_float := S754_zero false.
End F32.

(** ** numpy

    The numpy calls of the sources, on one-dimensional float32 arrays held as
    lists.

    [np.sum] adds a contiguous array as numpy's reduction does, pairwise:
    fewer than 8 elements are added one after the other; up to 128 elements
    are added into eight running sums, eight elements at a time, the eight
    sums are then added two by two and the elements left (fewer than 8) are
    added one after the other; a longer array is cut in two, the first part
    being half the length rounded down to a multiple of 8, and the sums of
    the two parts are added.  The reduction starts from 0.

    [np.mean] is that sum divided by the count.  On an empty array the count
    is 0 and the quotient 0/0 is NaN: numpy warns and returns it, it does not
    raise. *)

Module np.
Definition array_float32 (pcm : list Z) : list spec_float :=
  map F32.of_Z pcm.

Definition square (a : list spec_float) : list spec_float :=
  map (fun x => F32.mul x x) a.

(** The loop [res += a[i]] from [res]. *)
Definition add_each (res : spec_float) (a : list spec_float) : spec_float :=
  fold_left F32.add a res.

(** The eight running sums [r[0..7]]. *)
Record sums8 : Type := mkSums8 {
  r0 : spec_float; r1 : spec_float; r2 : spec_float; r3 : spec_float;
  r4 : spec_float; r5 : spec_float; r6 : spec_float; r7 : spec_float
}.

(** [r[j] += a[i + j]] for each full group of eight elements; what is left,
    fewer than eight elements, is returned with the sums. *)
Fixpoint add_groups (r : sums8) (a : list spec_float)
  : sums8 * list spec_float :=
  match a with
  | a0 :: a1 :: a2 :: a3 :: a4 :: a5 :: a6 :: a7 :: rest =>
      add_groups
        (mkSums8 (F32.add (r0 r) a0) (F32.add (r1 r) a1)
                 (F32.add (r2 r) a2) (F32.add (r3 r) a3)
                 (F32.add (r4 r) a4) (F32.add (r5 r) a5)
                 (F32.add (r6 r) a6) (F32.add (r7 r) a7))
        rest
  | _ => (r, a)
  end.

(** A block of 8 to 128 elements. *)
Definition block_sum (a : list spec_float) : spec_float :=
  match a with
  | a0 :: a1 :: a2 :: a3 :: a4 :: a5 :: a6 :: a7 :: rest =>
      let (r, tail) := add_groups (mkSums8 a0 a1 a2 a3 a4 a5 a6 a7) rest in
      let res :=
        F32.add
          (F32.add (F32.add (r0 r) (r1 r)) (F32.add (r2 r) (r3 r)))
          (F32.add (F32.add (r4 r) (r5 r)) (F32.add (r6 r) (r7 r))) in
      add_each res tail
  | _ => add_each F32.zero a
  end.

(** The pairwise sum.  [fuel] bounds the depth of the cuts; the length of
    the array is enough, see [pairwise_sum_fuel]. *)
Fixpoint pairwise_sum (fuel : nat) (a : list spec_float) : spec_float :=
  let n := List.length a in
  if (n <? 8)%nat then add_each F32.zero a
  else if (n <=? 128)%nat then block_sum a
  else
    match fuel with
    | O => block_sum a
    | S fuel' =>
        let n2 := (n / 2 - (n / 2) mod 8)%nat in
        F32.add (pairwise_sum fuel' (firstn n2 a))
                (pairwise_sum fuel' (skipn n2 a))
    end.

Definition sum (a : list spec_float) : spec_float :=
  F32.add F32.zero (pairwise_sum (List.length a) a).

Definition mean (a : list spec_float) : spec_float :=
  F32.div (sum a) (F32.of_Z (Z.of_nat (List.length a))).

Definition sqrt : spec_float -> spec_float := F32.sqrt.
End np.

(** ** Python call outcomes *)

Inductive exn : Type :=
| ZeroDivisionError.

Inductive pyresult (A : Type) : Type :=
| Returned (a : A)
| Raised (e : exn).

Arguments Returned {A} a.
Arguments Raised {A} e.

(** What a conversion ([int] on a float or on a string) gave: the value, or
    the exception Python raises. *)
Inductive converted (A : Type) : Type :=
| Converted (a : A)
| ValueError
| OverflowError.

Arguments Converted {A} a.
Arguments ValueError {A}.
Arguments OverflowError {A}.

(** ** custom_porcupine.py *)

(** The attributes of an [AudioLevelDetector] instance.  [threshold] is the
    Python int the code stores; the comparison with the float32 RMS sees its
    float32 value. *)
Record AudioLevelDetector : Type := mkAudioLevelDetector {
  frame_length : Z;
  sample_rate : Z;
  last_detection_time : spec_float;
  cooldown_period : spec_float;
  threshold : Z;
  num_keywords : Z;
  keyword_index : Z
}.

(** [AudioLevelDetector.__init__]: seven assignments and three log lines; the
    body has no [raise] and inspects [num_keywords] nowhere. *)
Definition AudioLevelDetector_init (num_keywords : Z)
  : pyresult AudioLevelDetector :=
  Returned {| frame_length := 512;
              sample_rate := 16000;
              last_detection_time := F64.of_Z 0;
              cooldown_period := F64.of_Z 2;
              threshold := 10000;
              num_keywords := num_keywords;
              keyword_index := 0 |}.

Definition set_last_detection_time (self : AudioLevelDetector)
    (t : spec_float) : AudioLevelDetector :=
  {| frame_length := frame_length self;
     sample_rate := sample_rate self;
     last_detection_time := t;
     cooldown_period := cooldown_period self;
     threshold := threshold self;
     num_keywords := num_keywords self;
     keyword_index := keyword_index self |}.

Definition set_keyword_index (self : AudioLevelDetector)
    (k : Z) : AudioLevelDetector :=
  {| frame_length := frame_length self;
     sample_rate := sample_rate self;
     last_detection_time := last_detection_time self;
     cooldown_period := cooldown_period self;
     threshold := threshold self;
     num_keywords := num_keywords self;
     keyword_index := k |}.

(** [np.sqrt(np.mean(pcm_array**2))] with
    [pcm_array = np.array(pcm).astype(np.float32)]. *)
Definition rms_of (pcm : list Z) : spec_float :=
  np.sqrt (np.mean (np.square (np.array_float32 pcm))).

(** [AudioLevelDetector.process].  [current_time] is the value [time.time()]
    returned for this call.  The result pairs what the call returned or raised
    with the instance as the call left it.  Python's [%] on ints is the floor
    modulus, [Z.modulo], and raises on a zero divisor; the assignment to
    [last_detection_time] precedes it. *)
Definition process (self : AudioLevelDetector) (current_time : spec_float)
    (pcm : list Z) : pyresult Z * AudioLevelDetector :=
  if F64.ltb (F64.sub current_time (last_detection_time self))
             (cooldown_period self)
  then (Returned (-1), self)
  else
    if 0 <? Z.of_nat (List.length pcm) then
      let rms := rms_of pcm in
      if F32.ltb (F32.of_Z (threshold self)) rms then
        let self1 := set_last_detection_time self current_time in
        let result := keyword_index self1 in
        if num_keywords self1 =? 0 then (Raised ZeroDivisionError, self1)
        else
          (Returned result,
           set_keyword_index self1
             ((keyword_index self1 + 1) mod num_keywords self1))
      else (Returned (-1), self)
    else (Returned (-1), self).

(** [create].  [real] is what the attempts with the pvporcupine library
    gave: the instance, when one of them returned it, and nothing when the
    import or every creation failed.  In the second case the fallback is
    built; [keyword_paths] is [None] or a list, and an empty list is falsy. *)
Definition create {Porcupine : Type} (real : option Porcupine)
    (keyword_paths : option (list string))
  : pyresult (Porcupine + AudioLevelDetector) :=
  match real with
  | Some porcupine => Returned (inl porcupine)
  | None =>
      let num_keywords :=
        match keyword_paths with
        | Some (p :: ps) => Z.of_nat (List.length (p :: ps))
        | Some [] | None => 1
        end in
      match AudioLevelDetector_init num_keywords with
      | Returned detector => Returned (inr detector)
      | Raised e => Raised e
      end
  end.

(** A host loop: successive calls of [process] on one instance, each with the
    clock value and the frame of that call; an exception ends the loop. *)
Fixpoint run (self : AudioLevelDetector)
    (calls : list (spec_float * list Z))
  : list (pyresult Z) * AudioLevelDetector :=
  match calls with
  | [] => ([], self)
  | (t, pcm) :: rest =>
      match process self t pcm with
      | (Returned r, self') =>
          let (rs, self'') := run self' rest in (Returned r :: rs, self'')
      | (Raised e, self') => ([Raised e], self')
      end
  end.

(** The slot indices among the results of a run: every value but the
    no-trigger value -1. *)
Fixpoint detections (rs : list (pyresult Z)) : list Z :=
  match rs with
  | [] => []
  | Returned r :: rs' => if r =? -1 then detections rs' else r :: detections rs'
  | Raised _ :: rs' => detections rs'
  end.

(** The three conditions of [process] under which it takes the trigger
    branch. *)
Definition cooldown_active (self : AudioLevelDetector)
    (current_time : spec_float) : bool :=
  F64.ltb (F64.sub current_time (last_detection_time self))
          (cooldown_period self).

Definition loud (self : AudioLevelDetector) (pcm : list Z) : bool :=
  F32.ltb (F32.of_Z (threshold self)) (rms_of pcm).

Definition in_range (self : AudioLevelDetector) : Prop :=
  0 <= keyword_index self < num_keywords self.

(** A frame of [n] equal samples. *)
Definition constant_frame (a : Z) (n : nat) : list Z := repeat a n.

(** A signed 16-bit value, what [struct] unpacks for the format [h]. *)
Definition int16 (s : Z) : bool := (-32768 <=? s) && (s <=? 32767).

(** A frame as the loops build it with [struct.unpack]: signed 16-bit
    samples, and fewer than 2^24 of them so that binary32 holds their count
    exactly.  On such frames every step of the RMS is the operation numpy
    performs: the samples and their count convert exactly, the squares, the
    sums, the quotient and the root are each rounded once. *)
Definition pcm_frame (pcm : list Z) : bool :=
  forallb int16 pcm && (Z.of_nat (List.length pcm) <? 16777216).

(** A threshold that binary32 holds exactly, as the 10000 that [__init__]
    assigns: the comparison of the RMS with it is then exact. *)
Definition threshold_exact (self : AudioLevelDetector) : bool :=
  Z.abs (threshold self) <=? 16777216.

(** [process] took the trigger branch. *)
Definition fires (self : AudioLevelDetector) (current_time : spec_float)
    (pcm : list Z) : bool :=
  negb (cooldown_active self current_time)
  && (0 <? Z.of_nat (List.length pcm))
  && loud self pcm.

(** ** normalize_mic_volume.py *)

(** Configuration.  The two RMS bounds are Python floats (8000.0, 12000.0);
    both are exact in binary32, the format in which they meet the RMS. *)
Definition SAMPLE_RATE : Z := 16000.
Definition FRAME_LENGTH : Z := 512.
Definition TARGET_RMS_LOW : spec_float := F32.of_Z 8000.
Definition TARGET_RMS_HIGH : spec_float := F32.of_Z 12000.
Definition ADJUST_STEP : Z := 5.
Definition MIN_VOLUME : Z := 0.
Definition MAX_VOLUME : Z := 100.

(** [calculate_rms]: no test on the length of [pcm]. *)
Definition calculate_rms (pcm : list Z) : spec_float :=
  let pcm_array := np.array_float32 pcm in
  let rms := np.sqrt (np.mean (np.square pcm_array)) in
  rms.

(** *** The pattern [\[(\d+)%\]]

    The output of the mixer is held as a [string], one character each; on
    ASCII text, which is what [amixer] prints and what the statements on the
    reading of the volume assume ([ascii_text]), [\d] is one of the ten
    digits 0 to 9. *)

Definition is_digit (c : ascii) : bool :=
  let n := nat_of_ascii c in (48 <=? n)%nat && (n <=? 57)%nat.

(** The longest run of digits that starts [s], and what follows it. *)
Fixpoint digits_prefix (s : string) : string * string :=
  match s with
  | EmptyString => (EmptyString, EmptyString)
  | String c r =>
      if is_digit c
      then let (d, t) := digits_prefix r in (String c d, t)
      else (EmptyString, s)
  end.

(** A match of the pattern at the first character of [s]: its group.  The
    run of digits must be followed by [%], which is no digit, so only the
    longest run can match. *)
Definition match_here (s : string) : option string :=
  match s with
  | String "["%char r =>
      match digits_prefix r with
      | (String d ds, String "%"%char (String "]"%char _)) =>
          Some (String d ds)
      | _ => None
      end
  | _ => None
  end.

(** [re.findall(...)[0]] when the list of matches is not empty: the group of
    the leftmost match. *)
Fixpoint first_match (s : string) : option string :=
  match s with
  | EmptyString => None
  | String c r =>
      match match_here s with
      | Some g => Some g
      | None => first_match r
      end
  end.

(** The number a string of decimal digits writes. *)
Fixpoint int_digits (acc : Z) (s : string) : Z :=
  match s with
  | EmptyString => acc
  | String c r => int_digits (10 * acc + Z.of_nat (nat_of_ascii c - 48)) r
  end.

(** The longest string of digits [int] converts
    ([sys.get_int_max_str_digits()]). *)
Definition INT_MAX_STR_DIGITS : Z := 4300.

(** [int] on a string of decimal digits: [ValueError] past the limit on the
    number of digits. *)
Definition int (s : string) : converted Z :=
  if INT_MAX_STR_DIGITS <? Z.of_nat (String.length s) then ValueError
  else Converted (int_digits 0 s).

(** Text of ASCII characters only. *)
Fixpoint ascii_text (s : string) : bool :=
  match s with
  | EmptyString => true
  | String c r => (nat_of_ascii c <? 128)%nat && ascii_text r
  end.

(** *** The outside world *)

(** What [subprocess.run(..., check=True)] did: it raised (no such program,
    non-zero exit status) or completed with this standard output. *)
Inductive completed : Type :=
| RunFailed
| RunCompleted (stdout : string).

Inductive message : Type :=
| Error_reading_mic_volume
| Could_not_read_current_mic_volume
| Status (rms : spec_float) (current_vol : Z)
| Set_mic_volume_to (volume : Z)
| Error_setting_mic_volume.

(** What a run of the script does that is visible from outside, in order. *)
Inductive event : Type :=
| StreamRead
| AmixerGet
| AmixerSset (volume : Z)
| Print (m : message)
| Sleep (seconds : Z).

(** The collaborators: the frame the stream delivers at its n-th read, the
    outcome of the n-th [amixer get Capture] and of the n-th
    [amixer sset Capture]. *)
Record env : Type := mkEnv {
  stream_read : nat -> list Z;
  amixer_get : nat -> completed;
  amixer_sset : nat -> completed
}.

(** How many times each collaborator has been called so far. *)
Record world : Type := mkWorld {
  frames_read : nat;
  gets_run : nat;
  ssets_run : nat
}.

(** Computations that call the collaborators and log what they do. *)
Definition M (A : Type) : Type := world -> A * world * list event.

Definition ret {A : Type} (a : A) : M A := fun w => (a, w, []).

Definition bind {A B : Type} (m : M A) (k : A -> M B) : M B :=
  fun w =>
    let '(a, w1, l1) := m w in
    let '(b, w2, l2) := k a w1 in
    (b, w2, l1 ++ l2).

Definition emit (e : event) : M unit := fun w => (tt, w, [e]).

Definition after {A : Type} (r : A * world * list event) : world :=
  snd (fst r).
Definition events {A : Type} (r : A * world * list event) : list event :=
  snd r.

Declare Scope M_scope.
Delimit Scope M_scope with M.
Notation "x <- m ;; k" := (bind m (fun x => k))
  (at level 61, m at next level, right associativity) : M_scope.
Notation "m ;; k" := (bind m (fun _ => k))
  (at level 61, right associativity) : M_scope.

(** The volumes of the [amixer sset] commands in a log. *)
Fixpoint written (l : list event) : list Z :=
  match l with
  | [] => []
  | AmixerSset v :: l' => v :: written l'
  | _ :: l' => written l'
  end.

(** The number of [amixer get] commands in a log. *)
Fixpoint reads (l : list event) : nat :=
  match l with
  | [] => O
  | AmixerGet :: l' => S (reads l')
  | _ :: l' => reads l'
  end.

Section Script.
Variable E : env.

Local Open Scope M_scope.

(** The read of a turn that goes on: [stream_read E] is the frame
    [struct.unpack] returned for it.  A read that does not hold
    [FRAME_LENGTH] samples raises [struct.error] instead and ends [main]; see
    [struct_unpack] and [main] below. *)
Definition stream_read_frame : M (list Z) :=
  fun w =>
    (stream_read E (frames_read w),
     mkWorld (S (frames_read w)) (gets_run w) (ssets_run w),
     [StreamRead]).

Definition run_amixer_get : M completed :=
  fun w =>
    (amixer_get E (gets_run w),
     mkWorld (frames_read w) (S (gets_run w)) (ssets_run w),
     [AmixerGet]).

Definition run_amixer_sset (volume : Z) : M completed :=
  fun w =>
    (amixer_sset E (ssets_run w),
     mkWorld (frames_read w) (gets_run w) (S (ssets_run w)),
     [AmixerSset volume]).

(** [get_current_mic_volume]: [None] when the command fails, when its
    output holds no percentage, and when [int] raises on the digits; the
    [except] clause prints the exception in the first and the last case. *)
Definition get_current_mic_volume : M (option Z) :=
  result <- run_amixer_get ;;
  match result with
  | RunCompleted output =>
      match first_match output with
      | Some m0 =>
          match int m0 with
          | Converted v => ret (Some v)
          | _ => emit (Print Error_reading_mic_volume) ;; ret None
          end
      | None => ret None
      end
  | RunFailed => emit (Print Error_reading_mic_volume) ;; ret None
  end.

(** [set_mic_volume]: the clamp, then the command, whatever the volume was
    before. *)
Definition set_mic_volume (volume : Z) : M unit :=
  let volume := Z.max MIN_VOLUME (Z.min volume MAX_VOLUME) in
  result <- run_amixer_sset volume ;;
  match result with
  | RunCompleted _ => emit (Print (Set_mic_volume_to volume))
  | RunFailed => emit (Print Error_setting_mic_volume)
  end.

(** One turn of the [while True] loop of [main]. *)
Definition loop_body : M unit :=
  pcm <- stream_read_frame ;;
  let rms := calculate_rms pcm in
  current_vol <- get_current_mic_volume ;;
  match current_vol with
  | None =>
      emit (Print Could_not_read_current_mic_volume) ;;
      emit (Sleep 1)
  | Some current_vol =>
      emit (Print (Status rms current_vol)) ;;
      (if F32.ltb rms TARGET_RMS_LOW then
         let new_vol := current_vol + ADJUST_STEP in
         set_mic_volume new_vol
       else if F32.ltb TARGET_RMS_HIGH rms then
         let new_vol := current_vol - ADJUST_STEP in
         set_mic_volume new_vol
       else ret tt) ;;
      emit (Sleep 1)
  end.

(** The first [n] turns of the loop. *)
Fixpoint main_loop (n : nat) : M unit :=
  match n with
  | O => ret tt
  | S k => loop_body ;; main_loop k
  end.

(** The value [get_current_mic_volume] returns at the next read. *)
Definition current_mic_volume (w : world) : option Z :=
  match amixer_get E (gets_run w) with
  | RunCompleted output =>
      match first_match output with
      | Some m0 =>
          match int m0 with
          | Converted v => Some v
          | _ => None
          end
      | None => None
      end
  | RunFailed => None
  end.

(** Whether the [except] clause of [get_current_mic_volume] runs at the next
    read: the command failed, or [int] raised. *)
Definition read_raises (w : world) : bool :=
  match amixer_get E (gets_run w) with
  | RunCompleted output =>
      match first_match output with
      | Some m0 =>
          match int m0 with
          | Converted _ => false
          | _ => true
          end
      | None => false
      end
  | RunFailed => true
  end.

(** The output of the next [amixer get], when the command completes, is
    ASCII text. *)
Definition ascii_reply (w : world) : bool :=
  match amixer_get E (gets_run w) with
  | RunCompleted output => ascii_text output
  | RunFailed => true
  end.

(** The RMS of the frame the stream delivers next. *)
Definition next_rms (w : world) : spec_float :=
  calculate_rms (stream_read E (frames_read w)).
End Script.

(** The world once the frame and the volume of a turn have been read. *)
Definition after_reads (w : world) : world :=
  mkWorld (S (frames_read w)) (S (gets_run w)) (ssets_run w).

(** A reply of [amixer get Capture] that reports this percentage. *)
Definition amixer_reply (percent : string) : string :=
  ("  Front Left: Capture 40 [" ++ percent ++ "%] [on]")%string.

(** Collaborators that always deliver the same frame and the same reply. *)
Definition steady (pcm : list Z) (reply : completed) : env :=
  mkEnv (fun _ => pcm) (fun _ => reply) (fun _ => RunCompleted EmptyString).

Definition start : world := mkWorld 0 0 0.

(** *** Reading a frame: [stream.read] and [struct.unpack]

    The bytes of a read are unpacked with the format [h] repeated
    [FRAME_LENGTH] times: native byte order, two bytes a sample.
    [struct.unpack] raises [struct.error] unless the buffer holds exactly
    that many bytes. *)

Inductive byteorder : Type :=
| little
| big.

Definition int16_of_bytes (order : byteorder) (b0 b1 : Byte.byte) : Z :=
  let (lo, hi) :=
    match order with
    | little => (b0, b1)
    | big => (b1, b0)
    end in
  let u := Z.of_N (Byte.to_N lo) + 256 * Z.of_N (Byte.to_N hi) in
  if u <? 32768 then u else u - 65536.

Fixpoint unpack_pairs (order : byteorder) (buffer : list Byte.byte)
  : list Z :=
  match buffer with
  | b0 :: b1 :: rest => int16_of_bytes order b0 b1 :: unpack_pairs order rest
  | _ => []
  end.

Inductive unpacked : Type :=
| Unpacked (pcm : list Z)
| struct_error.

(** [struct.unpack("h" * count, buffer)]. *)
Definition struct_unpack (order : byteorder) (count : nat)
    (buffer : list Byte.byte) : unpacked :=
  if (List.length buffer =? 2 * count)%nat
  then Unpacked (unpack_pairs order buffer)
  else struct_error.

(** The machine and its collaborators: the byte order, the bytes the stream
    delivers at its n-th read, the outcomes of the n-th [amixer get] and of
    the n-th [amixer sset]. *)
Record host : Type := mkHost {
  sys_byteorder : byteorder;
  stream_bytes : nat -> list Byte.byte;
  host_amixer_get : nat -> completed;
  host_amixer_sset : nat -> completed
}.

(** The frames [struct.unpack] returns on a host, for the reads it
    accepts. *)
Definition unpacked_frames (H : host) : env :=
  mkEnv (fun k =>
           match struct_unpack (sys_byteorder H) (Z.to_nat FRAME_LENGTH)
                   (stream_bytes H k) with
           | Unpacked pcm => pcm
           | struct_error => []
           end)
        (host_amixer_get H)
        (host_amixer_sset H).

(** How the first turns of [main] ended: all of them ran, or
    [struct.unpack] raised in one of them, which no clause of [main]
    catches. *)
Inductive ending : Type :=
| Turns_done
| Raised_struct_error.

(** The first [n] turns of the loop of [main] on a host.  The turn whose
    read cannot be unpacked stops at the read: [calculate_rms] and the
    mixer commands come after it in the body. *)
Fixpoint main (H : host) (n : nat) (w : world)
  : ending * world * list event :=
  match n with
  | O => (Turns_done, w, [])
  | S k =>
      match struct_unpack (sys_byteorder H) (Z.to_nat FRAME_LENGTH)
              (stream_bytes H (frames_read w)) with
      | struct_error =>
          (Raised_struct_error,
           mkWorld (S (frames_read w)) (gets_run w) (ssets_run w),
           [StreamRead])
      | Unpacked _ =>
          let r := loop_body (unpacked_frames H) w in
          let r' := main H k (after r) in
          (fst (fst r'), after r', events r ++ events r')
      end
  end.

(** A host that always delivers the same bytes and the same reply. *)
Definition steady_host (buffer : list Byte.byte) (reply : completed) : host :=
  mkHost little (fun _ => buffer) (fun _ => reply)
         (fun _ => RunCompleted EmptyString).

(** ** The listening loops

    The loop of [custom_porcupine.py] run as a script and the loop of [main]
    in [wake_word_test.py]: both draw a level bar from the RMS of the frame,
    call [process] and announce the detection. *)

(** [int] on a float: truncation toward zero; NaN raises [ValueError], an
    infinity raises [OverflowError]. *)
Definition int_of_float (x : spec_float) : converted Z :=
  match x with
  | S754_zero _ => Converted 0
  | S754_finite s m e => Converted (cond_Zopp s (Z.shiftl (Z.pos m) e))
  | S754_infinity _ => OverflowError
  | S754_nan => ValueError
  end.

(** [c * n] on a one-character string; a negative count gives the empty
    string. *)
Fixpoint str_mul (c : ascii) (n : nat) : string :=
  match n with
  | O => EmptyString
  | S k => String c (str_mul c k)
  end.

(** [bar_len = min(int(rms / 500 * 20), 20)] and
    [bar = '#' * bar_len + '-' * (20 - bar_len)].  The quotient and the
    product are taken in binary32, the format of [rms]. *)
Definition level_bar (rms : spec_float) : converted string :=
  match int_of_float (F32.mul (F32.div rms (F32.of_Z 500)) (F32.of_Z 20)) with
  | Converted n =>
      let bar_len := Z.min n 20 in
      Converted (str_mul "#" (Z.to_nat bar_len)
                 ++ str_mul "-" (Z.to_nat (20 - bar_len)))%string
  | ValueError => ValueError
  | OverflowError => OverflowError
  end.

Fixpoint contains (c : ascii) (s : string) : bool :=
  match s with
  | EmptyString => false
  | String a r => Ascii.eqb a c || contains c r
  end.

(** [os.path.basename]: what follows the last slash. *)
Fixpoint basename (p : string) : string :=
  match p with
  | EmptyString => EmptyString
  | String a r =>
      if contains "/" r then basename r
      else if Ascii.eqb a "/" then r else p
  end.

(** [s.split(sep)[0]]: what precedes the first separator, all of [s] when it
    has none. *)
Fixpoint split_head (sep : ascii) (s : string) : string :=
  match s with
  | EmptyString => EmptyString
  | String a r =>
      if Ascii.eqb a sep then EmptyString else String a (split_head sep r)
  end.

(** The announcement of the script: nothing when [keyword_index >= 0] fails;
    otherwise [keyword_paths[keyword_index]], which raises [IndexError] past
    the end of the list, gives the wake word. *)
Inductive lookup : Type :=
| Wake_word (name : string)
| IndexError.

Definition detected_wake_word (keyword_paths : list string)
    (keyword_index : Z) : option lookup :=
  if 0 <=? keyword_index then
    Some match nth_error keyword_paths (Z.to_nat keyword_index) with
         | Some path => Wake_word (split_head "_" (basename path))
         | None => IndexError
         end
  else None.

(** [get_keyword_file_paths] of [wake_word_test.py], from the directory of
    the script. *)
Definition get_keyword_file_paths (base_dir : string) : string * string :=
  let stop_keyword_path :=
    (base_dir ++ "/stop-there_en_linux_v3_0_0.ppn")%string in
  let computer_keyword_path :=
    (base_dir ++ "/computer_en_linux_v3_0_0.ppn")%string in
  (stop_keyword_path, computer_keyword_path).

(** The two tests of the loop of [wake_word_test.py] on the index
    returned. *)
Inductive announcement : Type :=
| Detected_stop_there
| Detected_computer.

Definition announce (keyword_index : Z) : option announcement :=
  if keyword_index =? 0 then Some Detected_stop_there
  else if keyword_index =? 1 then Some Detected_computer
  else None.

(** What the loop of [wake_word_test.py] announces over a run. *)
Fixpoint announcements (rs : list (pyresult Z)) : list announcement :=
  match rs with
  | [] => []
  | Returned r :: rs' =>
      match announce r with
      | Some a => a :: announcements rs'
      | None => announcements rs'
      end
  | Raised _ :: rs' => announcements rs'
  end.

(** ** Reading logs and texts *)

Fixpoint all_digits (s : string) : bool :=
  match s with
  | EmptyString => true
  | String c r => is_digit c && all_digits r
  end.

(** The number of events of a log that satisfy [p]. *)
Fixpoint count (p : event -> bool) (l : list event) : nat :=
  match l with
  | [] => O
  | e :: l' => if p e then S (count p l') else count p l'
  end.

Definition is_sleep (e : event) : bool :=
  match e with Sleep 1 => true | _ => false end.

Definition is_stream_read (e : event) : bool :=
  match e with StreamRead => true | _ => false end.

Definition is_amixer_get (e : event) : bool :=
  match e with AmixerGet => true | _ => false end.

Definition is_amixer_sset (e : event) : bool :=
  match e with AmixerSset _ => true | _ => false end.

(** The decimal digits of a non-negative int, least significant first. *)
Fixpoint digits_le (fuel : nat) (n : Z) : list Z :=
  match fuel with
  | O => []
  | S f => n mod 10 :: (if n <? 10 then [] else digits_le f (n / 10))
  end.

Definition digit_char (d : Z) : ascii := ascii_of_nat (48 + Z.to_nat d).

Fixpoint string_of_chars (l : list ascii) : string :=
  match l with
  | [] => EmptyString
  | c :: l' => String c (string_of_chars l')
  end.

(** [str] on a non-negative int, as the f-string of [set_mic_volume] formats
    the clamped volume. *)
Definition str (n : Z) : string :=
  string_of_chars (map digit_char (rev (digits_le (S (Z.to_nat n)) n))).

(** A float that is not below zero: a zero of either sign, a positive finite
    number, plus infinity, or NaN. *)
Definition not_negative (x : spec_float) : bool :=
  match x with
  | S754_infinity true | S754_finite true _ _ => false
  | _ => true
  end.

(** ** Facts on float comparison *)

Lemma SFcompare_swap (x y : spec_float) :
  SFcompare y x = option_map CompOpp (SFcompare x y).
Proof.
  destruct x as [sx | sx | | sx mx ex], y as [sy | sy | | sy my ey];
    try destruct sx; try destruct sy; simpl; try reflexivity;
    rewrite (Z.compare_antisym ex ey);
    destruct (ex ?= ey); simpl; try reflexivity;
    change (Pos.compare_cont Eq my mx) with (Pos.compare my mx);
    change (Pos.compare_cont Eq mx my) with (Pos.compare mx my);
    rewrite (Pos.compare_antisym mx my);
    destruct (mx ?= my)%positive; reflexivity.
Qed.

Lemma SFleb_not_SFltb (x y : spec_float) :
  SFleb x y = true -> SFltb y x = false.
Proof.
  unfold SFleb, SFltb. rewrite (SFcompare_swap x y).
  destruct (SFcompare x y) as [[ | | ] | ]; simpl; congruence.
Qed.

(** The band is not empty: an RMS above its upper bound is not below its
    lower bound. *)
Lemma above_high_not_below_low (x : spec_float) :
  F32.ltb TARGET_RMS_HIGH x = true -> F32.ltb x TARGET_RMS_LOW = false.
Proof.
  change TARGET_RMS_HIGH with (S754_finite false 12288000 (-10)).
  change TARGET_RMS_LOW with (S754_finite false 16384000 (-11)).
  unfold F32.ltb, SFltb.
  destruct x as [s | s | | s m e]; try destruct s; cbn [SFcompare];
    try discriminate; try reflexivity.
  destruct (Z.compare_spec (-10) e) as [H | H | H];
    destruct (Z.compare_spec e (-11)) as [H' | H' | H'];
    try lia; try discriminate; reflexivity.
Qed.

(** ** Facts on the sum and on the unpacking *)

Lemma cut_lengths (n : nat) :
  (128 < n)%nat ->
  (0 < n / 2 - (n / 2) mod 8 < n)%nat.
Proof.
  intros H.
  pose proof (Nat.div_mod_eq n 2) as E2.
  pose proof (Nat.mod_upper_bound n 2 ltac:(discriminate)) as B2.
  pose proof (Nat.mod_upper_bound (n / 2) 8 ltac:(discriminate)) as B8.
  lia.
Qed.

(** The length of the array is fuel enough: any two amounts of fuel that
    reach it give the same sum. *)
Lemma pairwise_sum_fuel (f1 f2 : nat) (a : list spec_float) :
  (List.length a <= f1)%nat -> (List.length a <= f2)%nat ->
  np.pairwise_sum f1 a = np.pairwise_sum f2 a.
Proof.
  revert f2 a. induction f1 as [ | f1 IH]; intros f2 a H1 H2.
  - destruct a; [ | cbn in H1; lia]. destruct f2; reflexivity.
  - destruct f2 as [ | f2].
    + destruct a; [reflexivity | cbn in H2; lia].
    + cbn [np.pairwise_sum].
      destruct (Nat.ltb_spec (List.length a) 8) as [ | H8]; [reflexivity | ].
      destruct (Nat.leb_spec (List.length a) 128) as [ | H128];
        [reflexivity | ].
      pose proof (cut_lengths _ H128) as Hcut.
      f_equal; apply IH;
        rewrite ?length_firstn, ?length_skipn; lia.
Qed.

Lemma int16_of_bytes_range (order : byteorder) (b0 b1 : Byte.byte) :
  int16 (int16_of_bytes order b0 b1) = true.
Proof.
  unfold int16, int16_of_bytes.
  pose proof (Byte.to_N_bounded b0) as H0.
  pose proof (Byte.to_N_bounded b1) as H1.
  destruct order;
    match goal with
    | |- context [if ?u <? 32768 then _ else _] =>
        destruct (Z.ltb_spec u 32768)
    end;
    apply andb_true_intro; split; apply Z.leb_le; lia.
Qed.

Lemma unpack_pairs_frame (order : byteorder) (count : nat) :
  forall buffer : list Byte.byte,
    List.length buffer = (2 * count)%nat ->
    List.length (unpack_pairs order buffer) = count /\
    forallb int16 (unpack_pairs order buffer) = true.
Proof.
  induction count as [ | count IH]; intros buffer H.
  - destruct buffer; [split; reflexivity | discriminate H].
  - destruct buffer as [ | b0 [ | b1 rest]]; try (cbn in H; lia).
    cbn [unpack_pairs List.length forallb].
    destruct (IH rest) as [IH1 IH2]; [cbn in H; lia | ].
    rewrite IH1, IH2, int16_of_bytes_range. split; reflexivity.
Qed.

(** What [struct.unpack] returns is a frame: [count] samples, each a signed
    16-bit value. *)
Lemma struct_unpack_frame (order : byteorder) (count : nat)
    (buffer : list Byte.byte) (pcm : list Z) :
  struct_unpack order count buffer = Unpacked pcm ->
  List.length pcm = count /\ forallb int16 pcm = true.
Proof.
  unfold struct_unpack.
  destruct (Nat.eqb_spec (List.length buffer) (2 * count)) as [H | H];
    [ | discriminate].
  intros E. injection E as <-. now apply unpack_pairs_frame.
Qed.

(** ** The branches of [process] *)

Lemma process_idle (self : AudioLevelDetector) (now : spec_float)
    (pcm : list Z) :
  fires self now pcm = false -> process self now pcm = (Returned (-1), self).
Proof.
  unfold fires, process, cooldown_active, loud.
  destruct (F64.ltb _ _); [reflexivity | ].
  destruct (0 <? _); [ | reflexivity].
  destruct (F32.ltb _ _); [discriminate | reflexivity].
Qed.

Lemma process_fired (self : AudioLevelDetector) (now : spec_float)
    (pcm : list Z) :
  fires self now pcm = true ->
  process self now pcm =
    if num_keywords self =? 0
    then (Raised ZeroDivisionError, set_last_detection_time self now)
    else (Returned (keyword_index self),
          set_keyword_index (set_last_detection_time self now)
            ((keyword_index self + 1) mod num_keywords self)).
Proof.
  unfold fires, process, cooldown_active, loud.
  destruct (F64.ltb _ _); [discriminate | ].
  destruct (0 <? _); [ | discriminate].
  destruct (F32.ltb _ _); [reflexivity | discriminate].
Qed.

Lemma fires_false_iff (self : AudioLevelDetector) (now : spec_float)
    (pcm : list Z) :
  fires self now pcm = false <->
  cooldown_active self now = true \/ pcm = [] \/ loud self pcm = false.
Proof.
  unfold fires. split.
  - destruct (cooldown_active self now); [now left | ].
    destruct pcm as [ | x pcm]; [now right; left | ].
    destruct (loud self (x :: pcm)); [ | now right; right].
    cbn [negb andb]. rewrite andb_true_r, Z.ltb_ge.
    cbn [List.length]. lia.
  - intros [H | [H | H]].
    + now rewrite H.
    + subst pcm. cbn. now rewrite andb_false_r.
    + rewrite H. apply andb_false_r.
Qed.

(** The instance changes only on a call that took the trigger branch. *)
Lemma process_changes_only_when_fired (self : AudioLevelDetector)
    (now : spec_float) (pcm : list Z) :
  snd (process self now pcm) <> self -> fires self now pcm = true.
Proof.
  intros H. destruct (fires self now pcm) eqn:E; [reflexivity | ].
  rewrite (process_idle _ _ _ E) in H. now elim H.
Qed.

(** ** Cooldown *)

(** C1: a call of [process] made while
    [current_time - last_detection_time < cooldown_period] returns -1, the
    no-trigger value, and leaves the instance as it was, whatever the frame:
    the cooldown test is the first statement of the method and returns before
    the RMS is computed. *)
Theorem process_cooldown_no_trigger (self : AudioLevelDetector)
    (current_time : spec_float) (pcm : list Z) :
  F64.ltb (F64.sub current_time (last_detection_time self))
          (cooldown_period self) = true ->
  process self current_time pcm = (Returned (-1), self).
Proof.
  intros H. unfold process. now rewrite H.
Qed.

Lemma process_cooldown_no_trigger_witness :
  F64.ltb (F64.sub (F64.of_Z 1) (last_detection_time
             (mkAudioLevelDetector 512 16000 (F64.of_Z 0) (F64.of_Z 2)
                10000 2 0)))
          (cooldown_period
             (mkAudioLevelDetector 512 16000 (F64.of_Z 0) (F64.of_Z 2)
                10000 2 0)) = true /\
  process (mkAudioLevelDetector 512 16000 (F64.of_Z 0) (F64.of_Z 2) 10000 2 0)
          (F64.of_Z 1) (constant_frame 16384 512)
  = (Returned (-1),
     mkAudioLevelDetector 512 16000 (F64.of_Z 0) (F64.of_Z 2) 10000 2 0).
Proof.
  split; [reflexivity | ].
  apply (process_cooldown_no_trigger
           (mkAudioLevelDetector 512 16000 (F64.of_Z 0) (F64.of_Z 2)
              10000 2 0)
           (F64.of_Z 1) (constant_frame 16384 512)).
  reflexivity.
Defined.

(** ** Threshold *)

(** C3: for a frame of 16-bit samples whose computed RMS is equal to or
    below the threshold, [process] returns -1 and leaves the instance as it
    was: the test is [rms > threshold], strict. *)
Theorem process_at_or_below_threshold (self : AudioLevelDetector)
    (current_time : spec_float) (pcm : list Z) :
  pcm_frame pcm = true ->
  threshold_exact self = true ->
  F32.leb (rms_of pcm) (F32.of_Z (threshold self)) = true ->
  process self current_time pcm = (Returned (-1), self).
Proof.
  intros _ _ H. apply process_idle. apply fires_false_iff.
  right; right. unfold loud. now apply SFleb_not_SFltb.
Qed.

Lemma process_at_or_below_threshold_witness :
  rms_of (constant_frame 10000 512) = F32.of_Z 10000 /\
  process (mkAudioLevelDetector 512 16000 (F64.of_Z 0) (F64.of_Z 2) 10000 2 0)
          (F64.of_Z 5) (constant_frame 10000 512)
  = (Returned (-1),
     mkAudioLevelDetector 512 16000 (F64.of_Z 0) (F64.of_Z 2) 10000 2 0).
Proof.
  split; [vm_compute; reflexivity | ].
  apply (process_at_or_below_threshold
           (mkAudioLevelDetector 512 16000 (F64.of_Z 0) (F64.of_Z 2)
              10000 2 0)
           (F64.of_Z 5) (constant_frame 10000 512)).
  - vm_compute. reflexivity.
  - reflexivity.
  - vm_compute. reflexivity.
Defined.

(** A trigger, or any change of the instance, needs an RMS strictly above the
    threshold. *)
Lemma process_trigger_needs_loud (self : AudioLevelDetector)
    (now : spec_float) (pcm : list Z) :
  process self now pcm <> (Returned (-1), self) ->
  F32.ltb (F32.of_Z (threshold self)) (rms_of pcm) = true.
Proof.
  intros H. destruct (fires self now pcm) eqn:E.
  - unfold fires in E. apply andb_prop in E. exact (proj2 E).
  - now elim H; apply process_idle.
Qed.

(** ** Frame condition *)

(** C10: a call of [process] that does not trigger, because the cooldown is
    active, because the frame is empty or because the RMS of its 16-bit
    samples does not exceed the threshold, returns -1 with every attribute of
    the instance as before; [last_detection_time] and [keyword_index] are
    assigned in the trigger branch only. *)
Theorem process_no_trigger_frame (self : AudioLevelDetector)
    (current_time : spec_float) (pcm : list Z) :
  cooldown_active self current_time = true \/ pcm = [] \/
    (pcm_frame pcm = true /\ threshold_exact self = true /\
     loud self pcm = false) ->
  process self current_time pcm = (Returned (-1), self) /\
  last_detection_time (snd (process self current_time pcm))
    = last_detection_time self /\
  keyword_index (snd (process self current_time pcm)) = keyword_index self.
Proof.
  intros H.
  assert (Hf : fires self current_time pcm = false).
  { apply fires_false_iff. destruct H as [H | [H | (_ & _ & H)]]; auto. }
  rewrite (process_idle _ _ _ Hf). repeat split.
Qed.

Lemma process_no_trigger_frame_witness :
  process (mkAudioLevelDetector 512 16000 (F64.of_Z 0) (F64.of_Z 2) 10000 2 1)
          (F64.of_Z 5) (constant_frame 10000 512)
  = (Returned (-1),
     mkAudioLevelDetector 512 16000 (F64.of_Z 0) (F64.of_Z 2) 10000 2 1).
Proof.
  apply (process_no_trigger_frame
           (mkAudioLevelDetector 512 16000 (F64.of_Z 0) (F64.of_Z 2)
              10000 2 1)
           (F64.of_Z 5) (constant_frame 10000 512)).
  right; right. split; [vm_compute; reflexivity | ].
  split; [reflexivity | vm_compute; reflexivity].
Defined.

(** ** Round-robin slots *)

(** A new instance with at least one slot starts in range. *)
Lemma init_in_range (n : Z) (self : AudioLevelDetector) :
  1 <= n -> AudioLevelDetector_init n = Returned self -> in_range self.
Proof.
  intros Hn H. injection H as <-. unfold in_range. cbn. lia.
Qed.

Lemma in_range_advance (self : AudioLevelDetector) (now : spec_float) :
  in_range self ->
  in_range (set_keyword_index (set_last_detection_time self now)
              ((keyword_index self + 1) mod num_keywords self)).
Proof.
  unfold in_range. cbn. intros H.
  apply Z.mod_pos_bound. lia.
Qed.

Lemma slots_shift (k0 n : Z) (len : nat) :
  0 <= k0 < n ->
  k0 :: map (fun k => ((k0 + 1) mod n + Z.of_nat k) mod n) (seq 0 len)
  = map (fun k => (k0 + Z.of_nat k) mod n) (seq 0 (S len)).
Proof.
  intros H. cbn [seq map]. f_equal.
  - rewrite Z.add_0_r. symmetry. now apply Z.mod_small.
  - rewrite <- seq_shift, map_map. apply map_ext. intros k.
    rewrite Zplus_mod_idemp_l. f_equal. lia.
Qed.

Lemma run_cons (self : AudioLevelDetector) (t : spec_float) (pcm : list Z)
    (rest : list (spec_float * list Z)) (r : Z) (self' : AudioLevelDetector) :
  process self t pcm = (Returned r, self') ->
  run self ((t, pcm) :: rest)
  = (Returned r :: fst (run self' rest), snd (run self' rest)).
Proof.
  intros H. cbn [run]. rewrite H. now destruct (run self' rest).
Qed.

(** From any instance in range: no call raises, the index stays in range and
    the triggering calls return the indices that follow the starting one. *)
Lemma run_from_in_range (calls : list (spec_float * list Z))
    (self : AudioLevelDetector) :
  in_range self ->
  in_range (snd (run self calls)) /\
  num_keywords (snd (run self calls)) = num_keywords self /\
  List.length (fst (run self calls)) = List.length calls /\
  Forall (fun r => exists z, r = Returned z) (fst (run self calls)) /\
  detections (fst (run self calls))
  = map (fun k => (keyword_index self + Z.of_nat k) mod num_keywords self)
        (seq 0 (List.length (detections (fst (run self calls))))).
Proof.
  revert self. induction calls as [ | [t pcm] rest IH]; intros self Hr.
  - cbn. destruct Hr. repeat split; trivial.
  - destruct (fires self t pcm) eqn:Ef.
    + pose proof (process_fired _ _ _ Ef) as Hp.
      assert (Hn : (num_keywords self =? 0) = false)
        by (apply Z.eqb_neq; unfold in_range in Hr; lia).
      rewrite Hn in Hp. rewrite (run_cons _ _ _ _ _ _ Hp). cbn [fst snd].
      pose proof (in_range_advance self t Hr) as Hr'.
      destruct (IH _ Hr') as (H1 & H2 & H3 & H4 & H5).
      repeat split.
      * apply H1.
      * apply H1.
      * rewrite H2. reflexivity.
      * cbn [List.length]. now rewrite H3.
      * constructor; [now exists (keyword_index self) | exact H4].
      * cbn [detections].
        assert (Hk : (keyword_index self =? -1) = false)
          by (apply Z.eqb_neq; unfold in_range in Hr; lia).
        rewrite Hk. cbn [List.length]. rewrite <- slots_shift by exact Hr.
        f_equal. exact H5.
    + pose proof (process_idle _ _ _ Ef) as Hp.
      rewrite (run_cons _ _ _ _ _ _ Hp). cbn [fst snd].
      destruct (IH _ Hr) as (H1 & H2 & H3 & H4 & H5).
      repeat split.
      * apply H1.
      * apply H1.
      * exact H2.
      * cbn [List.length]. now rewrite H3.
      * constructor; [now exists (-1) | exact H4].
      * cbn [detections]. change (-1 =? -1) with true. cbn iota. exact H5.
Qed.

(** C2: on an instance built with [num_keywords = n >= 1], any sequence of
    calls of [process] raises nothing and leaves [keyword_index] in [0, n)
    after every call, and the indices returned by the calls that trigger are
    0, 1, ..., n-1, 0, ... in this order, whatever the frames and the clock
    values of the calls. *)
Theorem run_slots_cycle (n : Z) (self : AudioLevelDetector)
    (calls : list (spec_float * list Z)) :
  1 <= n ->
  AudioLevelDetector_init n = Returned self ->
  0 <= keyword_index (snd (run self calls)) < n /\
  num_keywords (snd (run self calls)) = n /\
  List.length (fst (run self calls)) = List.length calls /\
  Forall (fun r => exists z, r = Returned z) (fst (run self calls)) /\
  detections (fst (run self calls))
  = map (fun k => Z.of_nat k mod n)
        (seq 0 (List.length (detections (fst (run self calls))))).
Proof.
  intros Hn Hinit.
  destruct (run_from_in_range calls self (init_in_range _ _ Hn Hinit))
    as (H1 & H2 & H3 & H4 & H5).
  injection Hinit as <-. cbn [num_keywords keyword_index] in *.
  unfold in_range in H1. rewrite H2 in H1.
  repeat (split; [assumption || apply H1 | ]).
  exact H5.
Qed.

Lemma run_slots_cycle_witness :
  exists self,
    AudioLevelDetector_init 2 = Returned self /\
    fst (run self
           [(F64.of_Z 3, constant_frame 16384 512);
            (F64.of_Z 4, constant_frame 32767 512);
            (F64.of_Z 6, constant_frame 32767 512);
            (F64.of_Z 9, constant_frame 0 512);
            (F64.of_Z 9, constant_frame 12000 512)])
    = [Returned 0; Returned (-1); Returned 1; Returned (-1); Returned 0] /\
    detections
      (fst (run self
              [(F64.of_Z 3, constant_frame 16384 512);
               (F64.of_Z 4, constant_frame 32767 512);
               (F64.of_Z 6, constant_frame 32767 512);
               (F64.of_Z 9, constant_frame 0 512);
               (F64.of_Z 9, constant_frame 12000 512)]))
    = map (fun k => Z.of_nat k mod 2) (seq 0 3).
Proof.
  eexists. split; [reflexivity | ]. split; [vm_compute; reflexivity | ].
  refine (eq_trans
    (proj2 (proj2 (proj2 (proj2
      (run_slots_cycle 2 _
         [(F64.of_Z 3, constant_frame 16384 512);
          (F64.of_Z 4, constant_frame 32767 512);
          (F64.of_Z 6, constant_frame 32767 512);
          (F64.of_Z 9, constant_frame 0 512);
          (F64.of_Z 9, constant_frame 12000 512)]
         _ eq_refl))))) _).
  - lia.
  - vm_compute. reflexivity.
Defined.

(** ** Construction *)

(** C6, as the code has it: the constructor validates nothing.  Every
    [num_keywords], values below 1 included, gives an instance that stores it
    unchanged with [keyword_index] 0; the fallback of [create] passes the
    length of [keyword_paths] when the list is not empty and 1 when it is
    empty or absent, so the instances it builds have at least one slot. *)
Theorem construction_accepts_any_slot_count :
  (forall n : Z,
     exists self, AudioLevelDetector_init n = Returned self /\
                  num_keywords self = n /\ keyword_index self = 0) /\
  (forall (Porcupine : Type) (keyword_paths : option (list string)),
     exists self,
       @create Porcupine None keyword_paths = Returned (inr self) /\
       num_keywords self
       = match keyword_paths with
         | Some (p :: ps) => Z.of_nat (List.length (p :: ps))
         | Some [] | None => 1
         end /\
       keyword_index self = 0 /\
       1 <= num_keywords self).
Proof.
  split.
  - intros n. eexists. split; [reflexivity | split; reflexivity].
  - intros Porcupine [[ | p ps] | ]; eexists;
      (split; [reflexivity | ]); (split; [reflexivity | ]);
      (split; [reflexivity | ]); cbn -[Z.of_nat]; cbn [List.length]; lia.
Qed.

(** Zero slots are accepted at construction. *)
Lemma init_zero_slots_not_rejected :
  (forall e, AudioLevelDetector_init 0 <> Raised e) /\
  AudioLevelDetector_init 0
  = Returned (mkAudioLevelDetector 512 16000 (F64.of_Z 0) (F64.of_Z 2)
                10000 0 0).
Proof.
  split; [intros e H; discriminate H | reflexivity].
Qed.

(** What the zero-slot instance does at its first loud frame outside the
    cooldown: the modulus raises, after [last_detection_time] was assigned. *)
Lemma zero_slots_first_trigger_raises (self : AudioLevelDetector)
    (now : spec_float) (pcm : list Z) :
  num_keywords self = 0 -> fires self now pcm = true ->
  process self now pcm
  = (Raised ZeroDivisionError, set_last_detection_time self now).
Proof.
  intros Hn Hf. rewrite (process_fired _ _ _ Hf), Hn. reflexivity.
Qed.

(** ** The gain loop, turn by turn *)

Lemma written_app (l1 l2 : list event) :
  written (l1 ++ l2) = written l1 ++ written l2.
Proof.
  induction l1 as [ | e l1 IH]; [reflexivity | ].
  destruct e; cbn; now rewrite IH.
Qed.

Lemma set_mic_volume_run (E : env) (volume : Z) (w : world) :
  set_mic_volume E volume w
  = (tt,
     mkWorld (frames_read w) (gets_run w) (S (ssets_run w)),
     [AmixerSset (Z.max MIN_VOLUME (Z.min volume MAX_VOLUME));
      Print match amixer_sset E (ssets_run w) with
            | RunCompleted _ =>
                Set_mic_volume_to (Z.max MIN_VOLUME (Z.min volume MAX_VOLUME))
            | RunFailed => Error_setting_mic_volume
            end]).
Proof.
  cbv [set_mic_volume bind run_amixer_sset emit].
  destruct (amixer_sset E (ssets_run w)); reflexivity.
Qed.

Lemma loop_body_unreadable (E : env) (w : world) :
  current_mic_volume E w = None ->
  loop_body E w
  = (tt, after_reads w,
     [StreamRead; AmixerGet]
       ++ (if read_raises E w then [Print Error_reading_mic_volume] else [])
       ++ [Print Could_not_read_current_mic_volume; Sleep 1]).
Proof.
  cbv [current_mic_volume read_raises loop_body bind stream_read_frame
       get_current_mic_volume run_amixer_get emit ret after_reads
       frames_read gets_run ssets_run].
  destruct w as [f g s].
  destruct (amixer_get E g) as [ | output]; [reflexivity | ].
  destruct (first_match output) as [m0 | ]; [ | reflexivity].
  destruct (int m0); [discriminate | reflexivity | reflexivity].
Qed.

Lemma loop_body_readable (E : env) (w : world) (current_vol : Z) :
  current_mic_volume E w = Some current_vol ->
  loop_body E w
  = let rms := next_rms E w in
    let r :=
      (if F32.ltb rms TARGET_RMS_LOW
       then set_mic_volume E (current_vol + ADJUST_STEP)
       else if F32.ltb TARGET_RMS_HIGH rms
            then set_mic_volume E (current_vol - ADJUST_STEP)
            else ret tt) (after_reads w) in
    (tt, after r,
     [StreamRead; AmixerGet; Print (Status rms current_vol)]
       ++ events r ++ [Sleep 1]).
Proof.
  cbv [current_mic_volume loop_body bind stream_read_frame
       get_current_mic_volume run_amixer_get emit ret after_reads next_rms
       frames_read gets_run ssets_run after events].
  destruct w as [f g s].
  destruct (amixer_get E g) as [ | output]; [discriminate | ].
  destruct (first_match output) as [m0 | ]; [ | discriminate].
  destruct (int m0) as [v | | ]; [ | discriminate | discriminate].
  intros H. injection H as <-.
  destruct (F32.ltb _ TARGET_RMS_LOW).
  - rewrite set_mic_volume_run. cbn [fst snd app]. reflexivity.
  - destruct (F32.ltb TARGET_RMS_HIGH _).
    + rewrite set_mic_volume_run. cbn [fst snd app]. reflexivity.
    + cbn [fst snd app]. reflexivity.
Qed.

Lemma main_loop_succ (E : env) (n : nat) (w : world) :
  main_loop E (S n) w
  = (tt, after (main_loop E n (after (loop_body E w))),
     events (loop_body E w)
       ++ events (main_loop E n (after (loop_body E w)))).
Proof.
  cbn [main_loop]. unfold bind, after, events.
  destruct (loop_body E w) as [[[] w1] l1]. cbn [fst snd].
  destruct (main_loop E n w1) as [[[] w2] l2]. reflexivity.
Qed.

Lemma loop_body_written_in_bounds (E : env) (w : world) (v : Z) :
  In v (written (events (loop_body E w))) ->
  MIN_VOLUME <= v <= MAX_VOLUME.
Proof.
  destruct (current_mic_volume E w) as [cur | ] eqn:Hc.
  - rewrite (loop_body_readable _ _ _ Hc). cbv zeta.
    destruct (F32.ltb _ TARGET_RMS_LOW);
      [ | destruct (F32.ltb TARGET_RMS_HIGH _)];
      try rewrite set_mic_volume_run; unfold events, ret; cbn [snd fst];
      cbn [written app In]; try tauto;
      intros [<- | []]; unfold MIN_VOLUME, MAX_VOLUME; lia.
  - rewrite (loop_body_unreadable _ _ Hc). unfold events. cbn [snd].
    destruct (read_raises E w); cbn; tauto.
Qed.

(** ** Volume bounds *)

(** C7: every volume the loop writes, in any number of turns, with any
    frames and any replies of the mixer, lies in [MIN_VOLUME, MAX_VOLUME]:
    [set_mic_volume] clamps its argument, [current_vol] plus or minus
    [ADJUST_STEP], before it runs the command. *)
Theorem written_volume_in_bounds (E : env) (n : nat) (w : world) (v : Z) :
  In v (written (events (main_loop E n w))) ->
  MIN_VOLUME <= v <= MAX_VOLUME.
Proof.
  revert w. induction n as [ | n IH]; intros w.
  - cbn. tauto.
  - rewrite main_loop_succ. unfold events at 1. cbn [snd].
    rewrite written_app, in_app_iff. intros [H | H].
    + exact (loop_body_written_in_bounds _ _ _ H).
    + exact (IH _ H).
Qed.

Lemma written_volume_in_bounds_witness :
  written (events (main_loop
     (steady (constant_frame 0 512) (RunCompleted (amixer_reply "98")))
     2 start)) = [100; 100] /\
  MIN_VOLUME <= 100 <= MAX_VOLUME.
Proof.
  split; [vm_compute; reflexivity | ].
  apply (written_volume_in_bounds
           (steady (constant_frame 0 512) (RunCompleted (amixer_reply "98")))
           2 start 100).
  vm_compute. left. reflexivity.
Defined.

(** ** The target band *)

(** C8: in a turn whose frame holds 16-bit samples and whose volume read,
    from ASCII output, gives [current_vol], an RMS inside the closed band
    [TARGET_RMS_LOW, TARGET_RMS_HIGH], bounds included, runs no
    [amixer sset]: the turn reads, prints the status and sleeps.  An RMS below
    [TARGET_RMS_LOW] calls [set_mic_volume (current_vol + ADJUST_STEP)], an
    RMS above [TARGET_RMS_HIGH] calls
    [set_mic_volume (current_vol - ADJUST_STEP)]. *)
Theorem loop_body_band (E : env) (w : world) (current_vol : Z) :
  pcm_frame (stream_read E (frames_read w)) = true ->
  ascii_reply E w = true ->
  current_mic_volume E w = Some current_vol ->
  (F32.leb TARGET_RMS_LOW (next_rms E w) = true ->
   F32.leb (next_rms E w) TARGET_RMS_HIGH = true ->
   loop_body E w
   = (tt, after_reads w,
      [StreamRead; AmixerGet; Print (Status (next_rms E w) current_vol);
       Sleep 1])) /\
  (F32.ltb (next_rms E w) TARGET_RMS_LOW = true ->
   events (loop_body E w)
   = [StreamRead; AmixerGet; Print (Status (next_rms E w) current_vol)]
       ++ events (set_mic_volume E (current_vol + ADJUST_STEP)
                    (after_reads w))
       ++ [Sleep 1]) /\
  (F32.ltb TARGET_RMS_HIGH (next_rms E w) = true ->
   events (loop_body E w)
   = [StreamRead; AmixerGet; Print (Status (next_rms E w) current_vol)]
       ++ events (set_mic_volume E (current_vol - ADJUST_STEP)
                    (after_reads w))
       ++ [Sleep 1]).
Proof.
  intros _ _ Hc. rewrite (loop_body_readable _ _ _ Hc). cbv zeta.
  split; [ | split].
  - intros Hlo Hhi.
    rewrite (SFleb_not_SFltb _ _ Hlo : F32.ltb _ TARGET_RMS_LOW = false).
    rewrite (SFleb_not_SFltb _ _ Hhi : F32.ltb TARGET_RMS_HIGH _ = false).
    reflexivity.
  - intros Hlo. rewrite Hlo. reflexivity.
  - intros Hhi. rewrite (above_high_not_below_low _ Hhi), Hhi. reflexivity.
Qed.

Lemma loop_body_band_witness :
  written (events (loop_body
     (steady (constant_frame 8000 512) (RunCompleted (amixer_reply "40")))
     start)) = [] /\
  written (events (loop_body
     (steady (constant_frame 0 512) (RunCompleted (amixer_reply "40")))
     start)) = [45] /\
  written (events (loop_body
     (steady (constant_frame 16384 512) (RunCompleted (amixer_reply "45")))
     start)) = [40].
Proof.
  split; [ | split].
  - rewrite (proj1 (loop_body_band
       (steady (constant_frame 8000 512) (RunCompleted (amixer_reply "40")))
       start 40 eq_refl eq_refl eq_refl) eq_refl eq_refl).
    reflexivity.
  - rewrite (proj1 (proj2 (loop_body_band
       (steady (constant_frame 0 512) (RunCompleted (amixer_reply "40")))
       start 40 eq_refl eq_refl eq_refl)) eq_refl).
    reflexivity.
  - rewrite (proj2 (proj2 (loop_body_band
       (steady (constant_frame 16384 512) (RunCompleted (amixer_reply "45")))
       start 45 eq_refl eq_refl eq_refl)) eq_refl).
    reflexivity.
Defined.

(** ** Writes outside the band *)

(** C5, as the code has it: in a turn whose frame holds 16-bit samples,
    whose volume read, from ASCII output, gives [current_vol] and whose RMS
    is outside the band,
    the loop runs exactly one [amixer sset], with [current_vol] plus (RMS
    below the band) or minus (RMS above it) [ADJUST_STEP] clamped to
    [MIN_VOLUME, MAX_VOLUME]; the clamped value is not compared with
    [current_vol]. *)
Theorem loop_body_outside_band_writes (E : env) (w : world)
    (current_vol : Z) :
  pcm_frame (stream_read E (frames_read w)) = true ->
  ascii_reply E w = true ->
  current_mic_volume E w = Some current_vol ->
  F32.ltb (next_rms E w) TARGET_RMS_LOW = true \/
    F32.ltb TARGET_RMS_HIGH (next_rms E w) = true ->
  written (events (loop_body E w))
  = [Z.max MIN_VOLUME
       (Z.min (if F32.ltb (next_rms E w) TARGET_RMS_LOW
               then current_vol + ADJUST_STEP
               else current_vol - ADJUST_STEP)
              MAX_VOLUME)].
Proof.
  intros _ _ Hc Hout. rewrite (loop_body_readable _ _ _ Hc). cbv zeta.
  destruct (F32.ltb (next_rms E w) TARGET_RMS_LOW) eqn:Hlo.
  - rewrite set_mic_volume_run. reflexivity.
  - destruct Hout as [Hout | Hout]; [discriminate | ].
    rewrite Hout, set_mic_volume_run. reflexivity.
Qed.

Lemma loop_body_outside_band_writes_witness :
  written (events (loop_body
     (steady (constant_frame 16384 512) (RunCompleted (amixer_reply "45")))
     start)) = [40].
Proof.
  apply (loop_body_outside_band_writes
     (steady (constant_frame 16384 512) (RunCompleted (amixer_reply "45")))
     start 45).
  - reflexivity.
  - reflexivity.
  - reflexivity.
  - right. reflexivity.
Defined.

(** At full volume with a silent frame the clamped proposal equals the
    current volume, and the command is run all the same. *)
Lemma full_volume_rewritten :
  let E := steady (constant_frame 0 512)
                  (RunCompleted (amixer_reply "100")) in
  pcm_frame (stream_read E (frames_read start)) = true /\
  ascii_reply E start = true /\
  current_mic_volume E start = Some 100 /\
  F32.ltb (next_rms E start) TARGET_RMS_LOW = true /\
  Z.max MIN_VOLUME (Z.min (100 + ADJUST_STEP) MAX_VOLUME) = 100 /\
  events (loop_body E start)
  = [StreamRead; AmixerGet; Print (Status (S754_zero false) 100);
     AmixerSset 100; Print (Set_mic_volume_to 100); Sleep 1] /\
  written (events (loop_body E start)) <> [].
Proof.
  cbv zeta. repeat (split; [vm_compute; reflexivity | ]).
  vm_compute. discriminate.
Qed.

(** ** Unreadable volume *)

(** C9: in a turn whose volume read gives nothing (the command failed, or
    its output holds no percentage) the loop runs no [amixer sset], runs
    [amixer get] once, prints "Could not read current mic volume.", sleeps one
    second, and goes on with the next turn, which starts from the next frame
    and the next reply of the mixer. *)
Theorem loop_body_read_failure (E : env) (w : world) (n : nat) :
  current_mic_volume E w = None ->
  written (events (loop_body E w)) = [] /\
  reads (events (loop_body E w)) = 1%nat /\
  (exists l,
     events (loop_body E w)
     = l ++ [Print Could_not_read_current_mic_volume; Sleep 1]) /\
  after (loop_body E w) = after_reads w /\
  events (main_loop E (S n) w)
  = events (loop_body E w) ++ events (main_loop E n (after_reads w)).
Proof.
  intros Hc. rewrite main_loop_succ.
  rewrite (loop_body_unreadable _ _ Hc). unfold events, after. cbn [fst snd].
  destruct (read_raises E w); cbn [app written reads].
  - repeat split.
    now exists [StreamRead; AmixerGet; Print Error_reading_mic_volume].
  - repeat split.
    now exists [StreamRead; AmixerGet].
Qed.

Lemma loop_body_read_failure_witness :
  events (main_loop
            (mkEnv (fun _ => constant_frame 0 512)
                   (fun k => match k with
                             | O => RunFailed
                             | _ => RunCompleted (amixer_reply "40")
                             end)
                   (fun _ => RunCompleted EmptyString))
            2 start)
  = [StreamRead; AmixerGet; Print Error_reading_mic_volume;
     Print Could_not_read_current_mic_volume; Sleep 1;
     StreamRead; AmixerGet; Print (Status (S754_zero false) 40);
     AmixerSset 45; Print (Set_mic_volume_to 45); Sleep 1].
Proof.
  rewrite (proj2 (proj2 (proj2 (proj2
    (loop_body_read_failure
       (mkEnv (fun _ => constant_frame 0 512)
              (fun k => match k with
                        | O => RunFailed
                        | _ => RunCompleted (amixer_reply "40")
                        end)
              (fun _ => RunCompleted EmptyString))
       start 1 eq_refl))))).
  vm_compute. reflexivity.
Defined.

(** ** The empty frame *)

Lemma main_struct_error (H : host) (n : nat) (w : world) :
  struct_unpack (sys_byteorder H) (Z.to_nat FRAME_LENGTH)
    (stream_bytes H (frames_read w)) = struct_error ->
  main H (S n) w
  = (Raised_struct_error,
     mkWorld (S (frames_read w)) (gets_run w) (ssets_run w),
     [StreamRead]).
Proof.
  intros Hu. cbn [main]. rewrite Hu. reflexivity.
Qed.

(** C4, as the code has it: only [process] guards the empty frame; it tests
    [len(pcm) > 0] and returns -1 with the instance unchanged, no RMS being
    computed.  [calculate_rms] has no test on the length: on the empty frame
    the mean is 0/0 and the result is NaN, not 0, and nothing is raised.  The
    gain loop never applies it to an empty frame: what [struct.unpack]
    returns has [FRAME_LENGTH] samples, all 16-bit, and a read of any other
    size, the empty read included, raises [struct.error], which ends [main]
    at the read, before [calculate_rms] and before any mixer command. *)
Theorem empty_frame_behaviour :
  (forall self now, process self now [] = (Returned (-1), self)) /\
  calculate_rms [] = S754_nan /\
  (forall order buffer pcm,
     struct_unpack order (Z.to_nat FRAME_LENGTH) buffer = Unpacked pcm ->
     List.length pcm = Z.to_nat FRAME_LENGTH /\ pcm_frame pcm = true) /\
  (forall order buffer,
     List.length buffer <> (2 * Z.to_nat FRAME_LENGTH)%nat ->
     struct_unpack order (Z.to_nat FRAME_LENGTH) buffer = struct_error) /\
  (forall H n w,
     stream_bytes H (frames_read w) = [] ->
     main H (S n) w
     = (Raised_struct_error,
        mkWorld (S (frames_read w)) (gets_run w) (ssets_run w),
        [StreamRead])).
Proof.
  split; [ | split; [ | split; [ | split]]].
  - intros self now. apply process_idle. apply fires_false_iff.
    right; left; reflexivity.
  - reflexivity.
  - intros order buffer pcm Hu.
    destruct (struct_unpack_frame _ _ _ _ Hu) as [Hlen Hall].
    split; [exact Hlen | ].
    unfold pcm_frame. rewrite Hall, Hlen. reflexivity.
  - intros order buffer Hlen. unfold struct_unpack.
    destruct (Nat.eqb_spec (List.length buffer) (2 * Z.to_nat FRAME_LENGTH));
      [contradiction | reflexivity].
  - intros H n w Hb. apply main_struct_error. rewrite Hb. reflexivity.
Qed.

(** The empty frame gives NaN in [calculate_rms], and an empty read ends
    [main] with [struct.error]. *)
Lemma empty_frame_no_sentinel :
  calculate_rms [] = S754_nan /\
  SFeqb (calculate_rms []) (F32.of_Z 0) = false /\
  main (steady_host [] (RunCompleted (amixer_reply "40"))) 1 start
  = (Raised_struct_error, mkWorld 1 0 0, [StreamRead]).
Proof.
  split; [reflexivity | ]. split; reflexivity.
Qed.

(** * Further properties of the detector *)

(** ** What [process] leaves alone *)

(** X1: whatever a call of [process] returns or raises, it changes none of
    [frame_length], [sample_rate], [cooldown_period], [threshold] and
    [num_keywords], and [last_detection_time] afterwards is its old value or
    the clock value of the call. *)
Theorem process_keeps_configuration (self : AudioLevelDetector)
    (current_time : spec_float) (pcm : list Z) :
  frame_length (snd (process self current_time pcm)) = frame_length self /\
  sample_rate (snd (process self current_time pcm)) = sample_rate self /\
  cooldown_period (snd (process self current_time pcm))
    = cooldown_period self /\
  threshold (snd (process self current_time pcm)) = threshold self /\
  num_keywords (snd (process self current_time pcm)) = num_keywords self /\
  (last_detection_time (snd (process self current_time pcm))
     = last_detection_time self \/
   last_detection_time (snd (process self current_time pcm))
     = current_time).
Proof.
  destruct (fires self current_time pcm) eqn:Ef.
  - rewrite (process_fired _ _ _ Ef).
    destruct (num_keywords self =? 0); cbn; repeat split; now right.
  - rewrite (process_idle _ _ _ Ef). cbn. repeat split; now left.
Qed.

(** ** Debounce *)

(** X2: from any state of the instance, every call whose clock value is
    less than [cooldown_period] after [last_detection_time] returns -1,
    however many such calls there are and whatever their frames, and none of
    them changes the instance: the calls that are suppressed do not prolong
    the cooldown. *)
Theorem cooldown_suppresses_every_call (calls : list (spec_float * list Z))
    (self : AudioLevelDetector) :
  Forall (fun c => F64.ltb (F64.sub (fst c) (last_detection_time self))
                           (cooldown_period self) = true) calls ->
  run self calls = (map (fun _ => Returned (-1)) calls, self).
Proof.
  induction calls as [ | [t pcm] rest IH]; intros H; [reflexivity | ].
  inversion H as [ | c l Hc Hrest]; subst.
  assert (Hp : process self t pcm = (Returned (-1), self)).
  { apply process_idle, fires_false_iff. now left. }
  rewrite (run_cons _ _ _ _ _ _ Hp), (IH Hrest). reflexivity.
Qed.

Lemma cooldown_suppresses_every_call_witness :
  run (mkAudioLevelDetector 512 16000 (F64.of_Z 1000) (F64.of_Z 2)
         10000 2 1)
      [(F64.of_Z 1000, constant_frame 32767 512);
       (F64.of_Z 1001, constant_frame 16384 512);
       (F64.of_Z 1001, [])]
  = ([Returned (-1); Returned (-1); Returned (-1)],
     mkAudioLevelDetector 512 16000 (F64.of_Z 1000) (F64.of_Z 2) 10000 2 1).
Proof.
  apply (cooldown_suppresses_every_call
           [(F64.of_Z 1000, constant_frame 32767 512);
            (F64.of_Z 1001, constant_frame 16384 512);
            (F64.of_Z 1001, [])]
           (mkAudioLevelDetector 512 16000 (F64.of_Z 1000) (F64.of_Z 2)
              10000 2 1)).
  repeat constructor.
Defined.

(** ** Slot counts below one *)

(** X3: an instance with [num_keywords = 0] never returns a slot.  Whatever
    the clock value and the frame, a call returns -1 and changes nothing, or
    raises [ZeroDivisionError] after [last_detection_time] was set to the
    clock value of the call, [keyword_index] unchanged. *)
Theorem zero_slots_never_return_a_slot (self : AudioLevelDetector)
    (current_time : spec_float) (pcm : list Z) :
  num_keywords self = 0 ->
  process self current_time pcm = (Returned (-1), self) \/
  process self current_time pcm
  = (Raised ZeroDivisionError, set_last_detection_time self current_time).
Proof.
  intros Hn. destruct (fires self current_time pcm) eqn:Ef.
  - right. rewrite (process_fired _ _ _ Ef), Hn. reflexivity.
  - left. now apply process_idle.
Qed.

Lemma zero_slots_never_return_a_slot_witness :
  process (mkAudioLevelDetector 512 16000 (F64.of_Z 0) (F64.of_Z 2)
             10000 0 0)
          (F64.of_Z 1000) (constant_frame 16384 512)
  = (Raised ZeroDivisionError,
     mkAudioLevelDetector 512 16000 (F64.of_Z 1000) (F64.of_Z 2) 10000 0 0).
Proof.
  destruct (zero_slots_never_return_a_slot
              (mkAudioLevelDetector 512 16000 (F64.of_Z 0) (F64.of_Z 2)
                 10000 0 0)
              (F64.of_Z 1000) (constant_frame 16384 512) eq_refl)
    as [Hp | Hp].
  - vm_compute in Hp. discriminate Hp.
  - exact Hp.
Defined.

Lemma negative_slots_advance (self : AudioLevelDetector) (now : spec_float) :
  num_keywords self < 0 ->
  num_keywords self
  < keyword_index
      (set_keyword_index (set_last_detection_time self now)
         ((keyword_index self + 1) mod num_keywords self)) <= 0.
Proof.
  intros H. cbn. apply Z.mod_neg_bound. exact H.
Qed.

(** From an instance with a negative [num_keywords] and [keyword_index] in
    (num_keywords, 0]. *)
Lemma run_negative_from (calls : list (spec_float * list Z))
    (self : AudioLevelDetector) :
  num_keywords self < keyword_index self <= 0 ->
  List.length (fst (run self calls)) = List.length calls /\
  Forall (fun r => exists z, r = Returned z /\ z <= 0 /\
                             (z = -1 \/ num_keywords self < z))
         (fst (run self calls)).
Proof.
  revert self. induction calls as [ | [t pcm] rest IH]; intros self Hr.
  - cbn. split; [reflexivity | constructor].
  - destruct (fires self t pcm) eqn:Ef.
    + pose proof (process_fired _ _ _ Ef) as Hp.
      assert (Hn : (num_keywords self =? 0) = false)
        by (apply Z.eqb_neq; lia).
      rewrite Hn in Hp. rewrite (run_cons _ _ _ _ _ _ Hp). cbn [fst snd].
      assert (Hneg : num_keywords self < 0) by lia.
      destruct (IH _ (negative_slots_advance self t Hneg)) as [H1 H2].
      split; [cbn [List.length]; now rewrite H1 | ].
      constructor; [exists (keyword_index self); split; [reflexivity | lia] | ].
      exact H2.
    + pose proof (process_idle _ _ _ Ef) as Hp.
      rewrite (run_cons _ _ _ _ _ _ Hp). cbn [fst snd].
      destruct (IH _ Hr) as [H1 H2].
      split; [cbn [List.length]; now rewrite H1 | ].
      constructor; [exists (-1); split; [reflexivity | lia] | exact H2].
Qed.

(** X4: an instance built with a negative [num_keywords] is accepted and
    never raises: Python's modulus takes the sign of the divisor, so
    [keyword_index] stays in (num_keywords, 0] and every call returns a value
    that is at most 0.  After the first trigger the indices returned are
    negative or 0, and -1 can be one of them. *)
Theorem negative_slots_return_no_positive_index (n : Z)
    (self : AudioLevelDetector) (calls : list (spec_float * list Z)) :
  n < 0 ->
  AudioLevelDetector_init n = Returned self ->
  List.length (fst (run self calls)) = List.length calls /\
  Forall (fun r => exists z, r = Returned z /\ z <= 0 /\ (z = -1 \/ n < z))
         (fst (run self calls)).
Proof.
  intros Hn Hinit. injection Hinit as <-.
  apply (run_negative_from calls). cbn. lia.
Qed.

Lemma negative_slots_return_no_positive_index_witness :
  exists self,
    AudioLevelDetector_init (-3) = Returned self /\
    fst (run self
           [(F64.of_Z 1000, constant_frame 16384 512);
            (F64.of_Z 1003, constant_frame 16384 512);
            (F64.of_Z 1006, constant_frame 16384 512);
            (F64.of_Z 1009, constant_frame 16384 512)])
    = [Returned 0; Returned (-2); Returned (-1); Returned 0] /\
    List.length
      (fst (run self
              [(F64.of_Z 1000, constant_frame 16384 512);
               (F64.of_Z 1003, constant_frame 16384 512);
               (F64.of_Z 1006, constant_frame 16384 512);
               (F64.of_Z 1009, constant_frame 16384 512)])) = 4%nat.
Proof.
  eexists. split; [reflexivity | ]. split; [vm_compute; reflexivity | ].
  refine (proj1 (negative_slots_return_no_positive_index (-3) _
    [(F64.of_Z 1000, constant_frame 16384 512);
     (F64.of_Z 1003, constant_frame 16384 512);
     (F64.of_Z 1006, constant_frame 16384 512);
     (F64.of_Z 1009, constant_frame 16384 512)] _ eq_refl)).
  lia.
Defined.

(** ** The announcement of the script *)

Lemma run_results_in_range (calls : list (spec_float * list Z))
    (self : AudioLevelDetector) :
  in_range self ->
  Forall (fun r => exists z, r = Returned z /\
                             (z = -1 \/ 0 <= z < num_keywords self))
         (fst (run self calls)).
Proof.
  revert self. induction calls as [ | [t pcm] rest IH]; intros self Hr.
  - constructor.
  - destruct (fires self t pcm) eqn:Ef.
    + pose proof (process_fired _ _ _ Ef) as Hp.
      assert (Hn : (num_keywords self =? 0) = false)
        by (apply Z.eqb_neq; unfold in_range in Hr; lia).
      rewrite Hn in Hp. rewrite (run_cons _ _ _ _ _ _ Hp). cbn [fst snd].
      constructor.
      * exists (keyword_index self). split; [reflexivity | now right].
      * exact (IH _ (in_range_advance self t Hr)).
    + pose proof (process_idle _ _ _ Ef) as Hp.
      rewrite (run_cons _ _ _ _ _ _ Hp). cbn [fst snd].
      constructor; [exists (-1); split; [reflexivity | now left] | ].
      exact (IH _ Hr).
Qed.

(** X5: when the fallback was built by [create] from a non-empty
    [keyword_paths], every value a call of [process] returns is -1 or a valid
    index of [keyword_paths]: the announcement of the script, which indexes
    [keyword_paths] with every non-negative value returned, never raises
    [IndexError]. *)
Theorem fallback_index_is_a_keyword_path (Porcupine : Type)
    (keyword_paths : list string) (self : AudioLevelDetector)
    (calls : list (spec_float * list Z)) (r : Z) :
  keyword_paths <> [] ->
  @create Porcupine None (Some keyword_paths) = Returned (inr self) ->
  In (Returned r) (fst (run self calls)) ->
  r = -1 \/
  exists path,
    nth_error keyword_paths (Z.to_nat r) = Some path /\
    detected_wake_word keyword_paths r
    = Some (Wake_word (split_head "_" (basename path))).
Proof.
  intros Hne Hc Hin.
  destruct keyword_paths as [ | p ps]; [now elim Hne | ].
  cbn -[Z.of_nat List.length] in Hc. injection Hc as <-.
  set (self := mkAudioLevelDetector _ _ _ _ _ _ _) in *.
  assert (Hr : in_range self)
    by (unfold in_range, self; cbn -[Z.of_nat]; cbn [List.length]; lia).
  pose proof (run_results_in_range calls self Hr) as Hall.
  rewrite Forall_forall in Hall.
  destruct (Hall _ Hin) as (z & Hz & Hrange).
  injection Hz as ->. destruct Hrange as [-> | Hrange]; [now left | right].
  change (num_keywords self) with (Z.of_nat (List.length (p :: ps)))
    in Hrange.
  destruct (nth_error (p :: ps) (Z.to_nat z)) as [path | ] eqn:Hnth.
  - exists path. split; [reflexivity | ].
    unfold detected_wake_word.
    destruct (Z.leb_spec 0 z) as [_ | Hlt]; [ | lia].
    now rewrite Hnth.
  - apply nth_error_None in Hnth. lia.
Qed.

Lemma fallback_index_is_a_keyword_path_witness :
  exists path,
    nth_error ["/models/computer_en_linux_v3_0_0.ppn";
               "/models/stop-there_en_linux_v3_0_0.ppn"]%string
              (Z.to_nat 1) = Some path /\
    detected_wake_word ["/models/computer_en_linux_v3_0_0.ppn";
                        "/models/stop-there_en_linux_v3_0_0.ppn"]%string 1
    = Some (Wake_word (split_head "_" (basename path))).
Proof.
  destruct (fallback_index_is_a_keyword_path unit
              ["/models/computer_en_linux_v3_0_0.ppn";
               "/models/stop-there_en_linux_v3_0_0.ppn"]%string
              (mkAudioLevelDetector 512 16000 (F64.of_Z 0) (F64.of_Z 2)
                 10000 2 0)
              [(F64.of_Z 1000, constant_frame 16384 512);
               (F64.of_Z 1003, constant_frame 16384 512)]
              1)
    as [H | H].
  - discriminate.
  - reflexivity.
  - vm_compute. right. left. reflexivity.
  - discriminate H.
  - exact H.
Defined.

Lemma contains_app (c : ascii) (s t : string) :
  contains c (s ++ t) = contains c s || contains c t.
Proof.
  induction s as [ | a s IH]; [reflexivity | ].
  cbn. rewrite IH. apply orb_assoc.
Qed.

Lemma basename_after_slash (dir tail : string) :
  contains "/" tail = false ->
  basename (dir ++ String "/" tail) = tail.
Proof.
  intros Ht. induction dir as [ | a dir IH].
  - cbn. now rewrite Ht.
  - cbn [append basename]. rewrite contains_app. cbn [contains].
    rewrite Ascii.eqb_refl, orb_true_l, orb_true_r. exact IH.
Qed.

Lemma split_head_before (sep : ascii) (name rest : string) :
  contains sep name = false ->
  split_head sep (name ++ String sep rest) = name.
Proof.
  induction name as [ | a name IH]; intros H.
  - cbn. now rewrite Ascii.eqb_refl.
  - cbn in H. apply orb_false_elim in H. destruct H as [Ha Hn].
    cbn. rewrite Ha. f_equal. exact (IH Hn).
Qed.

(** X6: for a model file [dir/name_rest], with no slash and no underscore in
    [name] and no slash in [rest], the wake word the script announces is
    [name], whatever the directory. *)
Theorem wake_word_of_model_path (dir name rest : string) :
  contains "/" name = false ->
  contains "_" name = false ->
  contains "/" rest = false ->
  split_head "_" (basename (dir ++ "/" ++ name ++ "_" ++ rest)) = name.
Proof.
  intros Hs Hu Hr.
  change (dir ++ "/" ++ name ++ "_" ++ rest)%string
    with (dir ++ String "/" (name ++ String "_" rest))%string.
  rewrite basename_after_slash.
  - now apply split_head_before.
  - rewrite contains_app. cbn [contains]. rewrite Hs, Hr. reflexivity.
Qed.

Lemma wake_word_of_model_path_witness :
  split_head "_"
    (basename "/home/jack/humptyprompty/wakeword_testing/stop-there_en_linux_v3_0_0.ppn")
  = "stop-there"%string.
Proof.
  apply (wake_word_of_model_path
           "/home/jack/humptyprompty/wakeword_testing"
           "stop-there" "en_linux_v3_0_0.ppn"); reflexivity.
Defined.

(** ** The announcements of wake_word_test.py *)

Lemma announcements_of_two_slots (rs : list (pyresult Z)) :
  Forall (fun r => exists z, r = Returned z /\ (z = -1 \/ 0 <= z < 2)) rs ->
  announcements rs
  = map (fun z => if z =? 0 then Detected_stop_there else Detected_computer)
        (detections rs).
Proof.
  induction rs as [ | r rs IH]; intros H; [reflexivity | ].
  inversion H as [ | x l (z & -> & Hz) Hrest]; subst.
  cbn [announcements detections]. rewrite (IH Hrest).
  destruct Hz as [-> | Hz]; [reflexivity | ].
  assert (Hcase : z = 0 \/ z = 1) by lia.
  destruct Hcase as [-> | ->]; reflexivity.
Qed.

(** X7: with the fallback built from the two paths of
    [get_keyword_file_paths], the loop of [wake_word_test.py] announces
    'stop there' at the first trigger, 'computer' at the second, and so on in
    alternation, whatever the frames were: the announcement depends on the
    count of triggers only. *)
Theorem fallback_announcements_alternate (Porcupine : Type)
    (base_dir : string) (self : AudioLevelDetector)
    (calls : list (spec_float * list Z)) :
  @create Porcupine None
     (Some [fst (get_keyword_file_paths base_dir);
            snd (get_keyword_file_paths base_dir)])
  = Returned (inr self) ->
  announcements (fst (run self calls))
  = map (fun k => if Z.of_nat k mod 2 =? 0
                  then Detected_stop_there else Detected_computer)
        (seq 0 (List.length (announcements (fst (run self calls))))).
Proof.
  intros Hc. cbn in Hc. injection Hc as <-.
  set (self := mkAudioLevelDetector _ _ _ _ _ _ _).
  assert (Hr : in_range self) by (unfold in_range, self; cbn; lia).
  pose proof (run_results_in_range calls self Hr) as Hall.
  destruct (run_from_in_range calls self Hr) as (_ & _ & _ & _ & Hd).
  change (num_keywords self) with 2 in Hall, Hd.
  change (keyword_index self) with 0 in Hd.
  rewrite (announcements_of_two_slots _ Hall), length_map.
  rewrite Hd at 1. rewrite map_map. reflexivity.
Qed.

Lemma fallback_announcements_alternate_witness :
  exists self,
    @create unit None
       (Some [fst (get_keyword_file_paths "/opt/wakeword_testing");
              snd (get_keyword_file_paths "/opt/wakeword_testing")])
    = Returned (inr self) /\
    announcements
      (fst (run self
              [(F64.of_Z 1000, constant_frame 16384 512);
               (F64.of_Z 1001, constant_frame 16384 512);
               (F64.of_Z 1003, constant_frame 32767 512);
               (F64.of_Z 1006, constant_frame 16384 512)]))
    = [Detected_stop_there; Detected_computer; Detected_stop_there].
Proof.
  eexists. split; [reflexivity | ].
  refine (eq_trans
    (fallback_announcements_alternate unit "/opt/wakeword_testing" _
       [(F64.of_Z 1000, constant_frame 16384 512);
        (F64.of_Z 1001, constant_frame 16384 512);
        (F64.of_Z 1003, constant_frame 32767 512);
        (F64.of_Z 1006, constant_frame 16384 512)] eq_refl) _).
  vm_compute. reflexivity.
Defined.

(** ** The sign of the loudness *)

Lemma binary_round_aux_not_negative (prec emax mx ex : Z) (lx : location) :
  not_negative (binary_round_aux prec emax false mx ex lx) = true.
Proof.
  unfold binary_round_aux.
  destruct (shr_fexp prec emax mx ex lx) as [mrs' e'].
  destruct (shr_fexp prec emax _ e' loc_Exact) as [mrs'' e''].
  destruct (shr_m mrs''); [reflexivity | | reflexivity].
  destruct (e'' <=? emax - prec); reflexivity.
Qed.

Lemma sqrt_not_negative (x : spec_float) :
  not_negative (F32.sqrt x) = true.
Proof.
  unfold F32.sqrt, SFsqrt.
  destruct x as [s | [ | ] | | [ | ] m e]; try reflexivity.
  destruct (SFsqrt_core_binary F32.prec F32.emax (Z.pos m) e) as [[mz ez] lz].
  apply binary_round_aux_not_negative.
Qed.

Lemma div_not_negative (x : spec_float) (m : positive) (e : Z) :
  not_negative x = true ->
  not_negative (F32.div x (S754_finite false m e)) = true.
Proof.
  unfold F32.div, SFdiv.
  destruct x as [s | [ | ] | | [ | ] mx ex]; try discriminate;
    try reflexivity.
  intros _.
  destruct (SFdiv_core_binary F32.prec F32.emax (Z.pos mx) ex (Z.pos m) e)
    as [[mz ez] lz].
  apply binary_round_aux_not_negative.
Qed.

Lemma mul_not_negative (x : spec_float) (m : positive) (e : Z) :
  not_negative x = true ->
  not_negative (F32.mul x (S754_finite false m e)) = true.
Proof.
  unfold F32.mul, SFmul.
  destruct x as [s | [ | ] | | [ | ] mx ex]; try discriminate;
    try reflexivity.
  intros _. apply binary_round_aux_not_negative.
Qed.

Lemma not_negative_not_below_zero (x : spec_float) :
  not_negative x = true ->
  F32.ltb x F32.zero = false /\
  (x = S754_nan \/ F32.leb F32.zero x = true).
Proof.
  destruct x as [s | [ | ] | | [ | ] m e]; try discriminate; intros _;
    (split; [reflexivity | ]); (now left) || (now right).
Qed.

(** X8: the loudness [calculate_rms] returns is never below zero, for any
    frame: it is NaN, or zero is less than or equal to it. *)
Theorem calculate_rms_not_negative (pcm : list Z) :
  F32.ltb (calculate_rms pcm) F32.zero = false /\
  (calculate_rms pcm = S754_nan \/
   F32.leb F32.zero (calculate_rms pcm) = true).
Proof.
  apply not_negative_not_below_zero. apply sqrt_not_negative.
Qed.

(** ** The level bar *)

Lemma length_str_mul (c : ascii) (n : nat) :
  String.length (str_mul c n) = n.
Proof.
  induction n as [ | n IH]; [reflexivity | ]. cbn. now rewrite IH.
Qed.

Lemma length_append (s t : string) :
  String.length (s ++ t) = (String.length s + String.length t)%nat.
Proof.
  induction s as [ | a s IH]; [reflexivity | ]. cbn. now rewrite IH.
Qed.

Lemma Converted_inj (A : Type) (a b : A) :
  Converted a = Converted b -> a = b.
Proof.
  intros H. now injection H.
Qed.

Lemma int_of_float_not_negative (x : spec_float) (n : Z) :
  not_negative x = true -> int_of_float x = Converted n -> 0 <= n.
Proof.
  destruct x as [s | s | | [ | ] m e]; try discriminate; intros _ H;
    injection H as <-; [lia | ].
  cbn [cond_Zopp]. apply Z.shiftl_nonneg. lia.
Qed.

(** X9: for every frame, when the level bar is drawn it has exactly 20
    characters, [k] sharps followed by [20 - k] dashes with [k] at most 20,
    however loud the frame.  The conversion to an int raises instead when the
    RMS is NaN or infinite. *)
Theorem level_bar_has_twenty_characters (pcm : list Z) (bar : string) :
  level_bar (rms_of pcm) = Converted bar ->
  String.length bar = 20%nat /\
  exists k : nat,
    (k <= 20)%nat /\ bar = (str_mul "#" k ++ str_mul "-" (20 - k))%string.
Proof.
  unfold level_bar.
  change (F32.of_Z 500) with (S754_finite false 16384000 (-15)).
  change (F32.of_Z 20) with (S754_finite false 10485760 (-19)).
  set (y := F32.mul _ _).
  assert (Hy : not_negative y = true).
  { apply mul_not_negative, div_not_negative, sqrt_not_negative. }
  destruct (int_of_float y) as [n | | ] eqn:Hn; try discriminate.
  pose proof (int_of_float_not_negative _ _ Hy Hn) as Hpos.
  intros H. apply Converted_inj in H. cbv zeta in H. subst bar. split.
  - rewrite length_append, !length_str_mul. lia.
  - exists (Z.to_nat (Z.min n 20)). split; [lia | ].
    f_equal. f_equal. lia.
Qed.

Lemma level_bar_has_twenty_characters_witness :
  level_bar (rms_of (constant_frame 100 512))
    = Converted "####----------------"%string /\
  String.length "####----------------" = 20%nat.
Proof.
  split; [vm_compute; reflexivity | ].
  apply (level_bar_has_twenty_characters (constant_frame 100 512)
           "####----------------").
  vm_compute. reflexivity.
Defined.

(** * Further properties of the gain loop *)

(** ** Reading the percentage *)

Lemma digits_prefix_spec (s : string) :
  s = (fst (digits_prefix s) ++ snd (digits_prefix s))%string /\
  all_digits (fst (digits_prefix s)) = true.
Proof.
  induction s as [ | c r IH]; [split; reflexivity | ].
  cbn [digits_prefix]. destruct (is_digit c) eqn:Hc.
  - destruct (digits_prefix r) as [d t]. cbn [fst snd] in *.
    destruct IH as [IH1 IH2]. split.
    + cbn. now rewrite <- IH1.
    + cbn. now rewrite Hc, IH2.
  - split; reflexivity.
Qed.

Lemma digits_prefix_app (g t : string) :
  all_digits g = true ->
  match t with
  | EmptyString => True
  | String c _ => is_digit c = false
  end ->
  digits_prefix (g ++ t) = (g, t).
Proof.
  intros Hg Ht. induction g as [ | c g IH].
  - destruct t as [ | c r]; [reflexivity | ]. cbn. now rewrite Ht.
  - cbn in Hg. apply andb_prop in Hg. destruct Hg as [Hc Hg].
    cbn. rewrite Hc, (IH Hg). reflexivity.
Qed.

Lemma match_here_sound (s g : string) :
  match_here s = Some g ->
  g <> EmptyString /\ all_digits g = true /\
  exists post, s = ("[" ++ g ++ "%]" ++ post)%string.
Proof.
  destruct s as [ | a r]; [discriminate | ].
  destruct (Ascii.eqb_spec a "[") as [-> | Ha].
  - cbn [match_here].
    destruct (digits_prefix_spec r) as [Hr Hd].
    destruct (digits_prefix r) as [d t]. cbn [fst snd] in *.
    destruct d as [ | d0 ds]; [discriminate | ].
    destruct t as [ | p t]; [discriminate | ].
    destruct (Ascii.eqb_spec p "%") as [-> | Hp].
    + destruct t as [ | q t]; [discriminate | ].
      destruct (Ascii.eqb_spec q "]") as [-> | Hq].
      * intros H. injection H as <-.
        split; [discriminate | ]. split; [exact Hd | ].
        exists t. rewrite Hr. reflexivity.
      * destruct q as [[] [] [] [] [] [] [] []]; try discriminate;
          now elim Hq.
    + destruct p as [[] [] [] [] [] [] [] []]; try discriminate;
        now elim Hp.
  - destruct a as [[] [] [] [] [] [] [] []]; try discriminate;
      now elim Ha.
Qed.

Lemma match_here_complete (g post : string) :
  g <> EmptyString -> all_digits g = true ->
  match_here ("[" ++ g ++ "%]" ++ post) = Some g.
Proof.
  intros Hne Hd.
  change ("[" ++ g ++ "%]" ++ post)%string
    with (String "[" (g ++ String "%" (String "]" post))).
  cbn [match_here]. rewrite digits_prefix_app by (trivial; reflexivity).
  destruct g; [now elim Hne | reflexivity].
Qed.

Lemma match_here_other (a : ascii) (r : string) :
  Ascii.eqb a "[" = false -> match_here (String a r) = None.
Proof.
  intros Ha.
  destruct a as [[] [] [] [] [] [] [] []]; try reflexivity; discriminate Ha.
Qed.

Lemma first_match_sound (s g : string) :
  first_match s = Some g ->
  g <> EmptyString /\ all_digits g = true /\
  exists pre post, s = (pre ++ "[" ++ g ++ "%]" ++ post)%string.
Proof.
  induction s as [ | a r IH]; [discriminate | ].
  cbn [first_match]. destruct (match_here (String a r)) as [g' | ] eqn:Hm.
  - intros H. injection H as ->.
    destruct (match_here_sound _ _ Hm) as (H1 & H2 & post & H3).
    split; [exact H1 | ]. split; [exact H2 | ].
    exists EmptyString, post. exact H3.
  - intros H. destruct (IH H) as (H1 & H2 & pre & post & H3).
    split; [exact H1 | ]. split; [exact H2 | ].
    exists (String a pre), post. cbn. now rewrite H3.
Qed.

Lemma first_match_leftmost (pre g post : string) :
  contains "[" pre = false ->
  g <> EmptyString -> all_digits g = true ->
  first_match (pre ++ "[" ++ g ++ "%]" ++ post) = Some g.
Proof.
  intros Hpre Hne Hd. induction pre as [ | a pre IH].
  - cbn [append]. 
    pose proof (match_here_complete g post Hne Hd) as Hm.
    change ("[" ++ g ++ "%]" ++ post)%string
      with (String "[" (g ++ String "%" (String "]" post))) in *.
    cbn [first_match]. now rewrite Hm.
  - cbn in Hpre. apply orb_false_elim in Hpre. destruct Hpre as [Ha Hpre].
    cbn [append first_match]. rewrite (match_here_other _ _ Ha).
    exact (IH Hpre).
Qed.

Lemma first_match_complete (pre g post : string) :
  g <> EmptyString -> all_digits g = true ->
  first_match (pre ++ "[" ++ g ++ "%]" ++ post) <> None.
Proof.
  intros Hne Hd. induction pre as [ | a pre IH].
  - cbn [append].
    pose proof (match_here_complete g post Hne Hd) as Hm.
    change ("[" ++ g ++ "%]" ++ post)%string
      with (String "[" (g ++ String "%" (String "]" post))) in *.
    cbn [first_match]. rewrite Hm. discriminate.
  - cbn [append first_match].
    destruct (match_here _); [discriminate | exact IH].
Qed.

Lemma get_current_mic_volume_value (E : env) (w : world) :
  fst (fst (get_current_mic_volume E w)) = current_mic_volume E w.
Proof.
  cbv [get_current_mic_volume current_mic_volume bind run_amixer_get ret
       emit].
  destruct (amixer_get E (gets_run w)) as [ | output]; [reflexivity | ].
  destruct (first_match output) as [m0 | ]; [ | reflexivity].
  destruct (int m0); reflexivity.
Qed.

Lemma int_converted (g : string) (v : Z) :
  int g = Converted v <->
  Z.of_nat (String.length g) <= INT_MAX_STR_DIGITS /\ v = int_digits 0 g.
Proof.
  unfold int.
  destruct (Z.ltb_spec INT_MAX_STR_DIGITS (Z.of_nat (String.length g)))
    as [Hlong | Hshort]; split.
  - discriminate.
  - intros [H _]. lia.
  - intros H. injection H as <-. split; [exact Hshort | reflexivity].
  - intros [_ ->]. reflexivity.
Qed.

Lemma int_digits_not_negative (s : string) (acc : Z) :
  0 <= acc -> 0 <= int_digits acc s.
Proof.
  revert acc. induction s as [ | c r IH]; intros acc H; [exact H | ].
  cbn [int_digits]. apply IH. lia.
Qed.

(** X10: on ASCII output, [get_current_mic_volume] gives a value exactly
    when the command completed, its output holds a bracketed percentage,
    [\[], one digit or more, [%\]], and the digits of the one found are not
    more than [int] converts; the value is then the number these digits
    write, never negative.  It gives [None] when the command failed, when the
    output holds no bracketed percentage, and when it holds one with too many
    digits. *)
Theorem get_current_mic_volume_reads_a_percentage (E : env) (w : world) :
  (forall output,
     amixer_get E (gets_run w) = RunCompleted output ->
     ascii_text output = true) ->
  (forall v,
     fst (fst (get_current_mic_volume E w)) = Some v ->
     0 <= v /\
     exists pre g post,
       amixer_get E (gets_run w)
       = RunCompleted (pre ++ "[" ++ g ++ "%]" ++ post) /\
       g <> EmptyString /\ all_digits g = true /\
       Z.of_nat (String.length g) <= INT_MAX_STR_DIGITS /\
       v = int_digits 0 g) /\
  (fst (fst (get_current_mic_volume E w)) = None ->
   amixer_get E (gets_run w) = RunFailed \/
   exists output,
     amixer_get E (gets_run w) = RunCompleted output /\
     ((forall pre g post,
         g <> EmptyString -> all_digits g = true ->
         output <> (pre ++ "[" ++ g ++ "%]" ++ post)%string) \/
      (exists pre g post,
         output = (pre ++ "[" ++ g ++ "%]" ++ post)%string /\
         all_digits g = true /\
         INT_MAX_STR_DIGITS < Z.of_nat (String.length g)))).
Proof.
  intros _.
  rewrite get_current_mic_volume_value. unfold current_mic_volume.
  destruct (amixer_get E (gets_run w)) as [ | output].
  - split; [discriminate | now left].
  - destruct (first_match output) as [g | ] eqn:Hm.
    + destruct (first_match_sound _ _ Hm) as (H1 & H2 & pre & post & H3).
      destruct (int g) as [v' | | ] eqn:Hi.
      * split; [ | discriminate].
        intros v H. injection H as <-.
        apply int_converted in Hi. destruct Hi as [Hlen ->].
        split; [now apply int_digits_not_negative | ].
        exists pre, g, post. rewrite H3. repeat split; assumption.
      * split; [discriminate | ]. intros _. right. exists output.
        split; [reflexivity | ]. right. exists pre, g, post.
        split; [exact H3 | ]. split; [exact H2 | ].
        unfold int in Hi.
        destruct (Z.ltb_spec INT_MAX_STR_DIGITS
                    (Z.of_nat (String.length g))); [assumption | discriminate].
      * unfold int in Hi.
        destruct (INT_MAX_STR_DIGITS <? Z.of_nat (String.length g));
          discriminate.
    + split; [discriminate | ]. intros _. right. exists output.
      split; [reflexivity | ]. left. intros pre g post Hne Hd ->.
      exact (first_match_complete pre g post Hne Hd Hm).
Qed.

Lemma get_current_mic_volume_reads_a_percentage_witness :
  0 <= 100 /\
  exists pre g post,
    amixer_get (steady [] (RunCompleted (amixer_reply "100"))) (gets_run start)
    = RunCompleted (pre ++ "[" ++ g ++ "%]" ++ post) /\
    g <> EmptyString /\ all_digits g = true /\
    Z.of_nat (String.length g) <= INT_MAX_STR_DIGITS /\
    100 = int_digits 0 g.
Proof.
  apply (proj1 (get_current_mic_volume_reads_a_percentage
                  (steady [] (RunCompleted (amixer_reply "100"))) start
                  (fun output H =>
                     match H in (_ = r)
                       return match r with
                              | RunCompleted o => ascii_text o = true
                              | RunFailed => True
                              end
                     with eq_refl => eq_refl end))).
  reflexivity.
Defined.

(** X11: when the ASCII output of the command holds a bracketed percentage
    of at most [INT_MAX_STR_DIGITS] digits with no opening bracket before it,
    [get_current_mic_volume] returns the number written there: of the
    percentages of several channels the first is taken, and [\[on\]] or a
    level in dB after it does not matter. *)
Theorem get_current_mic_volume_takes_first (E : env) (w : world)
    (pre g post : string) :
  amixer_get E (gets_run w)
    = RunCompleted (pre ++ "[" ++ g ++ "%]" ++ post) ->
  ascii_text (pre ++ "[" ++ g ++ "%]" ++ post) = true ->
  contains "[" pre = false ->
  g <> EmptyString ->
  all_digits g = true ->
  Z.of_nat (String.length g) <= INT_MAX_STR_DIGITS ->
  fst (fst (get_current_mic_volume E w)) = Some (int_digits 0 g).
Proof.
  intros Hout _ Hpre Hne Hd Hlen.
  rewrite get_current_mic_volume_value. unfold current_mic_volume.
  rewrite Hout, (first_match_leftmost pre g post Hpre Hne Hd).
  now rewrite (proj2 (int_converted g _) (conj Hlen eq_refl)).
Qed.

Lemma get_current_mic_volume_takes_first_witness :
  fst (fst (get_current_mic_volume
              (steady [] (RunCompleted
                 "  Front Left: Capture 25 [40%] [-16.50dB] [on]
  Front Right: Capture 26 [41%] [-15.00dB] [on]"))
              start)) = Some 40.
Proof.
  apply (get_current_mic_volume_takes_first
           (steady [] (RunCompleted
              "  Front Left: Capture 25 [40%] [-16.50dB] [on]
  Front Right: Capture 26 [41%] [-15.00dB] [on]"))
           start
           "  Front Left: Capture 25 " "40" " [-16.50dB] [on]
  Front Right: Capture 26 [41%] [-15.00dB] [on]").
  - reflexivity.
  - reflexivity.
  - reflexivity.
  - discriminate.
  - reflexivity.
  - vm_compute. discriminate.
Defined.

(** ** Writing and reading back *)

Lemma digit_char_spec (d : Z) :
  0 <= d < 10 ->
  is_digit (digit_char d) = true /\
  Z.of_nat (nat_of_ascii (digit_char d) - 48) = d.
Proof.
  intros H.
  assert (Hd : d = 0 \/ d = 1 \/ d = 2 \/ d = 3 \/ d = 4 \/ d = 5 \/
               d = 6 \/ d = 7 \/ d = 8 \/ d = 9) by lia.
  repeat (destruct Hd as [-> | Hd]; [split; reflexivity | ]).
  subst d. split; reflexivity.
Qed.

Lemma digits_le_range (fuel : nat) (n : Z) :
  Forall (fun d => 0 <= d < 10) (digits_le fuel n).
Proof.
  revert n. induction fuel as [ | f IH]; intros n; [constructor | ].
  cbn [digits_le]. constructor.
  - apply Z.mod_pos_bound. lia.
  - destruct (n <? 10); [constructor | apply IH].
Qed.

Lemma digits_le_value (fuel : nat) (n : Z) :
  0 <= n -> (Z.to_nat n < fuel)%nat ->
  fold_right (fun d v => 10 * v + d) 0 (digits_le fuel n) = n.
Proof.
  revert n. induction fuel as [ | f IH]; intros n Hn Hf; [lia | ].
  cbn [digits_le fold_right]. destruct (Z.ltb_spec n 10) as [Hlt | Hge].
  - cbn [fold_right]. rewrite Z.mod_small by lia. lia.
  - rewrite IH.
    + pose proof (Z.div_mod n 10). lia.
    + apply Z.div_pos; lia.
    + assert (n / 10 < n) by (apply Z.div_lt; lia).
      assert (0 <= n / 10) by (apply Z.div_pos; lia). lia.
Qed.

Lemma int_digits_of_chars (l : list Z) (acc : Z) :
  Forall (fun d => 0 <= d < 10) l ->
  int_digits acc (string_of_chars (map digit_char l))
  = fold_left (fun a d => 10 * a + d) l acc.
Proof.
  revert acc. induction l as [ | d l IH]; intros acc H; [reflexivity | ].
  inversion H as [ | x l' Hd Hl]; subst.
  cbn [map string_of_chars int_digits fold_left].
  rewrite (proj2 (digit_char_spec d Hd)). exact (IH _ Hl).
Qed.

Lemma all_digits_of_chars (l : list Z) :
  Forall (fun d => 0 <= d < 10) l ->
  all_digits (string_of_chars (map digit_char l)) = true.
Proof.
  induction l as [ | d l IH]; intros H; [reflexivity | ].
  inversion H as [ | x l' Hd Hl]; subst.
  cbn [map string_of_chars all_digits].
  now rewrite (proj1 (digit_char_spec d Hd)), (IH Hl).
Qed.

Lemma int_digits_str (n : Z) : 0 <= n -> int_digits 0 (str n) = n.
Proof.
  intros Hn. unfold str.
  rewrite int_digits_of_chars
    by (apply Forall_rev, digits_le_range).
  rewrite <- (rev_involutive (rev (digits_le _ n))) at 1.
  rewrite <- fold_left_rev_right, !rev_involutive.
  apply digits_le_value; [exact Hn | lia].
Qed.

Lemma str_digits (n : Z) :
  str n <> EmptyString /\ all_digits (str n) = true.
Proof.
  unfold str. split.
  - cbn [digits_le rev]. rewrite map_app. cbn [map].
    destruct (map digit_char _); discriminate.
  - apply all_digits_of_chars, Forall_rev, digits_le_range.
Qed.

Lemma digits_le_length (k fuel : nat) (n : Z) :
  0 <= n < 10 ^ Z.of_nat (S k) ->
  (List.length (digits_le fuel n) <= S k)%nat.
Proof.
  revert fuel n. induction k as [ | k IH]; intros fuel n Hn.
  - destruct fuel as [ | f]; cbn [digits_le List.length]; [lia | ].
    change (10 ^ Z.of_nat 1) with 10 in Hn.
    destruct (Z.ltb_spec n 10); [cbn; lia | lia].
  - destruct fuel as [ | f]; cbn [digits_le List.length]; [lia | ].
    destruct (Z.ltb_spec n 10) as [ | Hge]; [cbn; lia | ].
    assert (Hq : 0 <= n / 10 < 10 ^ Z.of_nat (S k)).
    { rewrite (Nat2Z.inj_succ (S k)), Z.pow_succ_r in Hn by lia.
      split; [apply Z.div_pos; lia | apply Z.div_lt_upper_bound; lia]. }
    specialize (IH f _ Hq). lia.
Qed.

Lemma length_string_of_chars (l : list ascii) :
  String.length (string_of_chars l) = List.length l.
Proof.
  induction l as [ | c l IH]; [reflexivity | ]. cbn. now rewrite IH.
Qed.

Lemma str_volume_converts (volume : Z) :
  MIN_VOLUME <= volume <= MAX_VOLUME ->
  int (str volume) = Converted volume.
Proof.
  unfold MIN_VOLUME, MAX_VOLUME. intros Hv.
  apply int_converted. split; [ | now rewrite int_digits_str].
  unfold str. rewrite length_string_of_chars, length_map, length_rev.
  pose proof (digits_le_length 2 (S (Z.to_nat volume)) volume) as H.
  change (10 ^ Z.of_nat 3) with 1000 in H.
  unfold INT_MAX_STR_DIGITS. lia.
Qed.

(** X12: a volume within [MIN_VOLUME, MAX_VOLUME], as [set_mic_volume]
    formats it into its command, echoed by the mixer in decimal between [\[]
    and [%\]] in ASCII output with no opening bracket before it, is read back
    by [get_current_mic_volume] as the same number. *)
Theorem volume_written_is_read_back (E : env) (w : world) (volume : Z)
    (pre post : string) :
  MIN_VOLUME <= volume <= MAX_VOLUME ->
  amixer_get E (gets_run w)
    = RunCompleted (pre ++ "[" ++ str volume ++ "%]" ++ post) ->
  ascii_text (pre ++ "[" ++ str volume ++ "%]" ++ post) = true ->
  contains "[" pre = false ->
  fst (fst (get_current_mic_volume E w)) = Some volume.
Proof.
  intros Hv Hout _ Hpre.
  rewrite get_current_mic_volume_value. unfold current_mic_volume.
  destruct (str_digits volume) as [Hne Hd].
  rewrite Hout, (first_match_leftmost pre _ post Hpre Hne Hd).
  now rewrite (str_volume_converts _ Hv).
Qed.

Lemma volume_written_is_read_back_witness :
  str 100 = "100"%string /\
  fst (fst (get_current_mic_volume
              (steady [] (RunCompleted
                 ("  Mono: Capture 63 " ++ "[" ++ str 100 ++ "%]"
                  ++ " [on]")))
              start)) = Some 100.
Proof.
  split; [reflexivity | ].
  apply (volume_written_is_read_back
           (steady [] (RunCompleted
              ("  Mono: Capture 63 " ++ "[" ++ str 100 ++ "%]" ++ " [on]")))
           start 100 "  Mono: Capture 63 " " [on]").
  - unfold MIN_VOLUME, MAX_VOLUME. lia.
  - reflexivity.
  - reflexivity.
  - reflexivity.
Defined.

(** ** What a turn does and does not do *)

Lemma count_app (p : event -> bool) (l1 l2 : list event) :
  count p (l1 ++ l2) = (count p l1 + count p l2)%nat.
Proof.
  induction l1 as [ | e l1 IH]; [reflexivity | ].
  cbn. destruct (p e); cbn; now rewrite IH.
Qed.

Lemma loop_body_counts (E : env) (w : world) :
  frames_read (after (loop_body E w)) = S (frames_read w) /\
  gets_run (after (loop_body E w)) = S (gets_run w) /\
  ssets_run (after (loop_body E w))
    = (ssets_run w + List.length (written (events (loop_body E w))))%nat /\
  count is_stream_read (events (loop_body E w)) = 1%nat /\
  count is_amixer_get (events (loop_body E w)) = 1%nat /\
  count is_sleep (events (loop_body E w)) = 1%nat /\
  count is_amixer_sset (events (loop_body E w))
    = List.length (written (events (loop_body E w))) /\
  (List.length (written (events (loop_body E w))) <= 1)%nat.
Proof.
  destruct (current_mic_volume E w) as [cur | ] eqn:Hc.
  - rewrite (loop_body_readable _ _ _ Hc). cbv zeta.
    destruct (F32.ltb _ TARGET_RMS_LOW);
      [ | destruct (F32.ltb TARGET_RMS_HIGH _)];
      try rewrite set_mic_volume_run; unfold events, after, ret, after_reads;
      cbn [fst snd app written count is_stream_read is_amixer_get is_sleep
           is_amixer_sset List.length frames_read gets_run ssets_run];
      repeat split; lia.
  - rewrite (loop_body_unreadable _ _ Hc). unfold events, after, after_reads.
    cbn [fst snd].
    destruct (read_raises E w);
      cbn [app written count is_stream_read is_amixer_get is_sleep
           is_amixer_sset List.length frames_read gets_run ssets_run];
      repeat split; lia.
Qed.

Lemma main_loop_succ_events (E : env) (n : nat) (w : world) :
  events (main_loop E (S n) w)
  = events (loop_body E w) ++ events (main_loop E n (after (loop_body E w))).
Proof.
  rewrite main_loop_succ. reflexivity.
Qed.

Lemma main_loop_succ_after (E : env) (n : nat) (w : world) :
  after (main_loop E (S n) w) = after (main_loop E n (after (loop_body E w))).
Proof.
  rewrite main_loop_succ. reflexivity.
Qed.

(** X13: in [n] turns the loop reads [n] frames, runs [amixer get] [n]
    times and sleeps [n] times one second, whatever fails, and runs
    [amixer sset] at most [n] times: one read of the volume and at most one
    write per turn, neither repeated after a failure. *)
Theorem main_loop_counts (E : env) (n : nat) (w : world) :
  frames_read (after (main_loop E n w)) = (frames_read w + n)%nat /\
  gets_run (after (main_loop E n w)) = (gets_run w + n)%nat /\
  ssets_run (after (main_loop E n w))
    = (ssets_run w + List.length (written (events (main_loop E n w))))%nat /\
  count is_stream_read (events (main_loop E n w)) = n /\
  count is_amixer_get (events (main_loop E n w)) = n /\
  count is_sleep (events (main_loop E n w)) = n /\
  count is_amixer_sset (events (main_loop E n w))
    = List.length (written (events (main_loop E n w))) /\
  (List.length (written (events (main_loop E n w))) <= n)%nat.
Proof.
  revert w. induction n as [ | n IH]; intros w.
  - cbn. repeat split; lia.
  - rewrite !main_loop_succ_events, !main_loop_succ_after.
    destruct (loop_body_counts E w)
      as (B1 & B2 & B3 & B4 & B5 & B6 & B7 & B8).
    destruct (IH (after (loop_body E w)))
      as (H1 & H2 & H3 & H4 & H5 & H6 & H7 & H8).
    rewrite !count_app, written_app, length_app.
    repeat split; lia.
Qed.

(** X14: in a turn whose frame holds 16-bit samples, when the volume read,
    from ASCII output, is within [MIN_VOLUME, MAX_VOLUME], the volume the turn writes is at most
    [ADJUST_STEP] away from it, not below it when the RMS is under the band
    and not above it when the RMS is over the band: small steps in the right
    direction.  (A volume read outside the bounds is brought back to the
    nearer bound in one write.) *)
Theorem write_is_one_step (E : env) (w : world) (current_vol v : Z) :
  pcm_frame (stream_read E (frames_read w)) = true ->
  ascii_reply E w = true ->
  current_mic_volume E w = Some current_vol ->
  MIN_VOLUME <= current_vol <= MAX_VOLUME ->
  In v (written (events (loop_body E w))) ->
  current_vol - ADJUST_STEP <= v <= current_vol + ADJUST_STEP /\
  (F32.ltb (next_rms E w) TARGET_RMS_LOW = true -> current_vol <= v) /\
  (F32.ltb TARGET_RMS_HIGH (next_rms E w) = true -> v <= current_vol).
Proof.
  intros _ _ Hc Hb. rewrite (loop_body_readable _ _ _ Hc). cbv zeta.
  unfold MIN_VOLUME, MAX_VOLUME, ADJUST_STEP in *.
  destruct (F32.ltb (next_rms E w) TARGET_RMS_LOW) eqn:Hlo.
  - rewrite set_mic_volume_run. unfold events. cbn [fst snd written app In].
    unfold MIN_VOLUME, MAX_VOLUME.
    intros [<- | []]. split; [lia | ]. split; [lia | ].
    intros Hhi. rewrite (above_high_not_below_low _ Hhi) in Hlo.
    discriminate Hlo.
  - destruct (F32.ltb TARGET_RMS_HIGH (next_rms E w)) eqn:Hhi.
    + rewrite set_mic_volume_run. unfold events. cbn [fst snd written app In].
      unfold MIN_VOLUME, MAX_VOLUME.
      intros [<- | []]. split; [lia | ]. split; [discriminate | lia].
    + unfold events, ret. cbn [fst snd written app In]. tauto.
Qed.

Lemma write_is_one_step_witness :
  98 - ADJUST_STEP <= 100 <= 98 + ADJUST_STEP.
Proof.
  apply (write_is_one_step
           (steady (constant_frame 0 512) (RunCompleted (amixer_reply "98")))
           start 98 100).
  - reflexivity.
  - reflexivity.
  - reflexivity.
  - unfold MIN_VOLUME, MAX_VOLUME. lia.
  - vm_compute. left. reflexivity.
Defined.

(** X15: a turn whose frame holds 16-bit samples and whose mixer output is
    ASCII runs [amixer sset] only when the volume was read in that turn and the RMS is below
    [TARGET_RMS_LOW] or above [TARGET_RMS_HIGH]: never after a failed read,
    never for an RMS inside the band. *)
Theorem write_needs_read_and_out_of_band (E : env) (w : world) :
  pcm_frame (stream_read E (frames_read w)) = true ->
  ascii_reply E w = true ->
  written (events (loop_body E w)) <> [] ->
  exists current_vol,
    current_mic_volume E w = Some current_vol /\
    (F32.ltb (next_rms E w) TARGET_RMS_LOW = true \/
     F32.ltb TARGET_RMS_HIGH (next_rms E w) = true).
Proof.
  intros _ _. destruct (current_mic_volume E w) as [cur | ] eqn:Hc.
  - rewrite (loop_body_readable _ _ _ Hc). cbv zeta. intros H.
    exists cur. split; [reflexivity | ].
    destruct (F32.ltb (next_rms E w) TARGET_RMS_LOW); [now left | ].
    destruct (F32.ltb TARGET_RMS_HIGH (next_rms E w)); [now right | ].
    now elim H.
  - rewrite (loop_body_unreadable _ _ Hc). unfold events. cbn [snd].
    destruct (read_raises E w); intros H; now elim H.
Qed.

Lemma write_needs_read_and_out_of_band_witness :
  exists current_vol,
    current_mic_volume
      (steady (constant_frame 16384 512) (RunCompleted (amixer_reply "45")))
      start = Some current_vol /\
    (F32.ltb (next_rms
                (steady (constant_frame 16384 512)
                        (RunCompleted (amixer_reply "45"))) start)
             TARGET_RMS_LOW = true \/
     F32.ltb TARGET_RMS_HIGH
             (next_rms
                (steady (constant_frame 16384 512)
                        (RunCompleted (amixer_reply "45"))) start) = true).
Proof.
  apply (write_needs_read_and_out_of_band
           (steady (constant_frame 16384 512)
                   (RunCompleted (amixer_reply "45")))
           start).
  - reflexivity.
  - reflexivity.
  - vm_compute. discriminate.
Defined.
